(** * Verification of the dynamic GraphQL query layer, the type-mapping
      repository and the changelist repository.

    The development is a shallow embedding of
      - [src/graphql/schema.ts] (class [GraphQLSchemaGenerator]),
      - the type-mapping repository (class [TypeMappingRepository]),
      - the changelist repository and mapper (classes [ChangelistRepository],
        [ChangelistMapper]).

    JavaScript objects whose key order is observable ([Object.keys(..)[0]],
    [forEach] over the keys) are association lists; objects used only as
    dictionaries are [gmap]s. Promises are modelled by their settlement. *)

From Stdlib Require Import ZArith Ascii String List Bool Lia DecimalString.
From stdpp Require Import base option list strings gmap fin_maps.

Local Open Scope string_scope.
Local Open Scope list_scope.

(** ** JavaScript string and array primitives used by the sources *)
Module JS.

(** [String.prototype.split(sep)] for a non-empty separator [sep].  The
    scan walks the string once; [skip] counts the characters of a matched
    separator that are still to be dropped and [cur] is the piece being
    collected. *)
Fixpoint split_from (sep : string) (skip : nat) (cur : string) (s : string)
  : list string :=
  match s with
  | EmptyString => [cur]
  | String c rest =>
      match skip with
      | S k => split_from sep k cur rest
      | O =>
          if String.prefix sep s
          then cur :: split_from sep (String.length sep - 1) EmptyString rest
          else split_from sep 0 (cur +:+ String c EmptyString) rest
      end
  end.

Definition split (sep : string) (s : string) : list string :=
  split_from sep 0 EmptyString s.

(** [Array.prototype.join(sep)]. *)
Fixpoint join (sep : string) (parts : list string) : string :=
  match parts with
  | [] => EmptyString
  | [p] => p
  | p :: ps => p +:+ sep +:+ join sep ps
  end.

(** [Array.prototype.shift()]: the removed first element ([None] is
    [undefined]) and the array that remains. *)
Definition shift (parts : list string) : option string * list string :=
  match parts with
  | [] => (None, [])
  | p :: ps => (Some p, ps)
  end.

(** [Array.prototype.includes(x)] on an array of strings; [None] is
    [undefined], which no string equals. *)
Definition includes (xs : list string) (x : option string) : bool :=
  match x with
  | None => false
  | Some v => existsb (String.eqb v) xs
  end.

(** [String.prototype.replace(pat, by)] with a one-character string
    pattern: only the first occurrence is replaced. *)
Fixpoint replace_first (pat by_ : ascii) (s : string) : string :=
  match s with
  | EmptyString => EmptyString
  | String c rest =>
      if Ascii.eqb c pat then String by_ rest
      else String c (replace_first pat by_ rest)
  end.

(** Truthiness of an optional string: [undefined] and the empty string are falsy. *)
Definition truthy_string (s : option string) : bool :=
  match s with
  | None => false
  | Some v => negb (String.eqb v EmptyString)
  end.

End JS.

(** ** [breakQuery] *)
Module BreakQuery.

Definition operators : list string := ["eq"; "neq"; "like"; "in"; "<"; ">"].

(** [breakQuery(query)]; the two-element array it returns is a pair. *)
Definition breakQuery (query : string) : string * string :=
  let parts := JS.split " " query in
  if negb (JS.includes operators (head parts)) then ("eq", query)
  else
    let '(operator, parts') := JS.shift parts in
    (default "undefined" operator, JS.join " " parts').

(** The text before the first space character (the whole string when it
    has none). *)
Fixpoint before_space (s : string) : string :=
  match s with
  | EmptyString => EmptyString
  | String c rest =>
      if Ascii.eqb c " " then EmptyString else String c (before_space rest)
  end.

(** The text after the first space character (empty when there is none). *)
Fixpoint after_space (s : string) : string :=
  match s with
  | EmptyString => EmptyString
  | String c rest => if Ascii.eqb c " " then rest else after_space rest
  end.

Definition is_operator (tok : string) : bool :=
  existsb (String.eqb tok) operators.

(** The reading of the grammar with arbitrary whitespace as the delimiter:
    a token ends at the first space, tab, line feed, vertical tab, form
    feed or carriage return. *)
Definition is_whitespace (c : ascii) : bool := Ascii.is_space c.

Fixpoint first_token (s : string) : string :=
  match s with
  | EmptyString => EmptyString
  | String c rest =>
      if is_whitespace c then EmptyString else String c (first_token rest)
  end.

Fixpoint after_token (s : string) : string :=
  match s with
  | EmptyString => EmptyString
  | String c rest => if is_whitespace c then rest else after_token rest
  end.

Definition whitespace_breakQuery (query : string) : string * string :=
  if is_operator (first_token query)
  then (first_token query, after_token query)
  else ("eq", query).

End BreakQuery.

(** ** The schema generator and the resolver ([GraphQLSchemaGenerator]) *)
Module Schema.

(** *** Ontology objects *)

Record MetatypeKey := {
  key_name : string;
  property_name : string;
  data_type : string;
  options : option (list string)
}.

Record Metatype := {
  metatype_id : option string;
  metatype_name : string;
  metatype_description : string;
  keys : option (list MetatypeKey)
}.

Record MetatypeRelationshipPair := {
  pair_id : string;
  pair_name : string
}.

(** *** GraphQL types built by the generator *)

Inductive GraphQLType :=
| GraphQLString
| GraphQLFloat
| GraphQLBoolean
| GraphQLInt
| GraphQLJSON
| GraphQLList (elt : GraphQLType)
| GraphQLEnumType (name : string) (values : gmap string string)
| GraphQLNamed (name : string).



(** JavaScript [a || b] on strings: [a] when it is truthy, else [b]. *)
Definition js_or (a b : string) : string :=
  if String.eqb a EmptyString then b else a.

(** The label of the third [case] of the two [switch] statements is the
    expression ['string' || 'date' || 'file']. *)
Definition string_case_label : string := js_or (js_or "string" "date") "file".

Section Generator.

(** [stringToValidPropertyName] lives in [services/utilities], which is not
    among the sources; it is a parameter of everything below. *)
Variable stringToValidPropertyName : string -> string.

(** [enumMap]: every option is mapped to [{value: option}]. *)
Definition enumMap (k : MetatypeKey) : gmap string string :=
  match options k with
  | Some opts => foldl (fun m o => <[o := o]> m) ∅ opts
  | None => ∅
  end.

(** The [switch (metatypeKey.data_type)] shared by the output fields
    (suffix [_Enum_TypeA]) and the input fields (suffix [_Enum_Type_B]). *)
Definition typeForKey (suffix : string) (metatype : Metatype) (k : MetatypeKey)
  : GraphQLType :=
  let dt := data_type k in
  if String.eqb dt "number" then GraphQLFloat
  else if String.eqb dt "boolean" then GraphQLBoolean
  else if String.eqb dt string_case_label then GraphQLString
  else if String.eqb dt "list" then GraphQLList GraphQLJSON
  else if String.eqb dt "enumeration" then
    GraphQLEnumType
      (stringToValidPropertyName
         (metatype_name metatype +:+ "_" +:+ key_name k +:+ suffix))
      (enumMap k)
  else GraphQLString.

Definition setField (suffix : string) (metatype : Metatype)
  (fields : gmap string GraphQLType) (k : MetatypeKey) : gmap string GraphQLType :=
  <[stringToValidPropertyName (property_name k) := typeForKey suffix metatype k]> fields.


(** [inputFieldsForMetatype]. *)
Definition inputFieldsForMetatype (metatype : Metatype) : gmap string GraphQLType :=
  match keys metatype with
  | Some ks => foldl (setField "_Enum_Type_B" metatype) ∅ ks
  | None => ∅
  end.

(** The [args] of the query field of a metatype. *)
Definition argsForMetatype (metatype : Metatype) : gmap string GraphQLType :=
  <["_relationship" := GraphQLNamed (metatype_name metatype +:+ "_relationship_input")]>
    (<["_record" := GraphQLNamed "record_input"]> (inputFieldsForMetatype metatype)).

(** *** Grouping of the relationship pairs *)

(** [pair.name.split(' : ')[i]]; [None] is [undefined]. *)
Definition namePart (i : nat) (name : string) : option string :=
  JS.split " : " name !! i.

(** [m[a][b][c]]; [None] when one of the three keys is missing. *)
Definition lookup3 (m : gmap string (gmap string (gmap string GraphQLType)))
  (a b c : string) : option GraphQLType :=
  ma ← m !! a; mab ← ma !! b; mab !! c.

(** [if (!(a in m)) m[a] = {}]. *)
Definition ensure1 (a : string)
  (m : gmap string (gmap string (gmap string GraphQLType))) :=
  match m !! a with
  | Some _ => m
  | None => <[a := ∅]> m
  end.

(** [if (!(b in m[a])) m[a][b] = {}]. *)
Definition ensure2 (a b : string)
  (m : gmap string (gmap string (gmap string GraphQLType))) :=
  match m !! a ≫= (fun ma => ma !! b) with
  | Some _ => m
  | None => alter (fun ma => <[b := ∅]> ma) a m
  end.

(** [if (!(c in m[a][b])) m[a][b][c] = {type: GraphQLString}]. *)
Definition ensure3 (a b c : string)
  (m : gmap string (gmap string (gmap string GraphQLType))) :=
  match lookup3 m a b c with
  | Some _ => m
  | None => alter (alter (fun mab => <[c := GraphQLString]> mab) b) a m
  end.

Definition populate (a b c : string)
  (m : gmap string (gmap string (gmap string GraphQLType)))
  : gmap string (gmap string (gmap string GraphQLType)) :=
  ensure3 a b c (ensure2 a b (ensure1 a m)).

(** The body of [metatypePairResults.value.forEach]. The helper is typed on
    strings only: a name with fewer than three parts hands [undefined] to
    it, which is outside this model ([None]). *)
Definition addPair
  (m : gmap string (gmap string (gmap string GraphQLType)))
  (pair : MetatypeRelationshipPair)
  : option (gmap string (gmap string (gmap string GraphQLType))) :=
  o ← namePart 0 (pair_name pair);
  r ← namePart 1 (pair_name pair);
  d ← namePart 2 (pair_name pair);
  let origin := stringToValidPropertyName o in
  let rel := stringToValidPropertyName r in
  let dest := stringToValidPropertyName d in
  (* populate list for forward searching, then for reverse searching *)
  Some (populate dest rel origin (populate origin rel dest m)).

Fixpoint addPairs
  (m : gmap string (gmap string (gmap string GraphQLType)))
  (pairs : list MetatypeRelationshipPair)
  : option (gmap string (gmap string (gmap string GraphQLType))) :=
  match pairs with
  | [] => Some m
  | p :: rest => m' ← addPair m p; addPairs m' rest
  end.

Definition metatypePairList (pairs : list MetatypeRelationshipPair)
  : option (gmap string (gmap string (gmap string GraphQLType))) :=
  addPairs ∅ pairs.

End Generator.




(** *** Values exchanged with the resolver *)

#[warnings="-register-all"]
Inductive JSON :=
| JNull
| JBool (b : bool)
| JNumber (z : Z)
| JString (s : string)
| JArray (items : list JSON).

(** Truthiness of a value that may be [undefined] ([None]). *)
Definition truthy (v : option JSON) : bool :=
  match v with
  | None => false
  | Some JNull => false
  | Some (JBool b) => b
  | Some (JNumber z) => negb (z =? 0)%Z
  | Some (JString s) => negb (String.eqb s EmptyString)
  | Some (JArray _) => true
  end.

(** The [_record] argument ([record_input]). *)
Record RecordInput := {
  rec_data_source_id : option string;
  rec_original_id : option JSON;
  rec_import_id : option string;
  rec_limit : option Z;
  rec_page : option Z
}.

(** The [_relationship] argument: relationship name, then a list of
    objects whose keys are destination metatype names. Key order is the
    order of [Object.keys]. *)
Definition DestinationInput : Type := list (string * bool).
Definition RelationshipInput : Type := list (string * list DestinationInput).

(** The argument object handed to a resolver; [arguments] are its keys
    other than the two reserved ones, in [Object.keys] order. *)
Record ResolverInput := {
  _record : option RecordInput;
  _relationship : option RelationshipInput;
  arguments : list (string * JSON)
}.

Inductive Exn :=
| TypeError (msg : string)
| Raised (e : string).

Inductive Outcome (A : Type) :=
| Ok (a : A)
| Throw (e : Exn).
Arguments Ok {A} a.
Arguments Throw {A} e.

Definition obind {A B} (o : Outcome A) (f : A -> Outcome B) : Outcome B :=
  match o with
  | Ok a => f a
  | Throw e => Throw e
  end.

(** *** Graph data *)

(** Identifiers of nodes are [bigint] keys; the driver hands them to the
    code as decimal strings, which the code passes on unchanged. *)
Record Node := {
  node_id : Z;
  node_container_id : string;
  node_metatype_id : string;
  node_metatype_name : string;
  node_data_source_id : option string;
  node_original_data_id : option JSON;
  node_import_data_id : option string;
  node_properties : option (list (string * JSON));
  node_metadata : option JSON;
  node_created_at : option Z;
  node_created_by : option string;
  node_modified_at : option Z;
  node_modified_by : option string
}.

Record Edge := {
  edge_id : Z;
  origin_id : Z;
  destination_id : Z
}.

(** What [await edgeRepo.findByRelationship(..)] yields: a result object
    with its [value] ([None] is [undefined]), or a rejection. *)
Inductive EdgeLookup :=
| EdgeResult (value : option (list Edge))
| EdgeRejected (e : string).

(** *** The node query *)

Inductive IdValue :=
| IdNumber (z : Z)
| IdList (ids : list Z).

Inductive Predicate :=
| ContainerID (operator value : string)
| MetatypeID (operator : string) (value : option string)
| DataSourceID (operator value : string)
| OriginalDataID (operator value : string)
| ImportDataID (operator value : string)
| Id (operator : string) (value : IdValue)
| Property (name operator value dataType : string).

Record Query := {
  predicates : list Predicate;
  loadRelationships : bool;
  limit : option Z
}.

(** The [Result] of [repo.list]. *)
Record ListResult := {
  isError : bool;
  value : option (list Node);
  error : option string
}.

Inductive ListOutcome :=
| Fulfilled (results : ListResult)
| RejectedWith (e : string).

(** How a node repository fails, when it does: it returns an error
    [Result] (with whatever [value] and [error] it carries) or its promise
    rejects. *)
Inductive ListFailure :=
| ReturnsError (value : option (list Node)) (error : option string)
| Rejects (e : string).

(** Modelled from the spec: the node repository ([NodeRepository], Graph
    Repository interface) is not among the sources. It holds the nodes, a
    failure mode, and the meaning [holds] of every predicate on a node other
    than the two id predicates the resolver builds. *)
Record NodeRepository := {
  nodes : list Node;
  failure : option ListFailure;
  holds : Predicate -> Node -> bool
}.

(** Modelled from the spec: [id('eq', n)] selects the node whose id is [n],
    [id('in', ids)] the nodes whose id is among [ids]; chained predicates
    are conjoined. *)
Definition satisfies (repo : NodeRepository) (p : Predicate) (n : Node) : bool :=
  match p with
  | Id operator (IdNumber z) =>
      if String.eqb operator "eq" then (node_id n =? z)%Z else holds repo p n
  | Id operator (IdList ids) =>
      if String.eqb operator "in" then existsb (Z.eqb (node_id n)) ids
      else holds repo p n
  | _ => holds repo p n
  end.

Definition capped (limit : option Z) (rows : list Node) : list Node :=
  match limit with
  | Some l => firstn (Z.to_nat l) rows
  | None => rows
  end.

(** Modelled from the spec: [list(loadRelationships, {limit})]. *)
Definition list_nodes (repo : NodeRepository) (q : Query) : ListOutcome :=
  match failure repo with
  | Some (ReturnsError v e) => Fulfilled {| isError := true; value := v; error := e |}
  | Some (Rejects e) => RejectedWith e
  | None =>
      Fulfilled {| isError := false;
                   value := Some (capped (limit q)
                              (List.filter (fun n => forallb (fun p => satisfies repo p n)
                                                  (predicates q))
                                 (nodes repo)));
                   error := None |}
  end.

(** *** The rows a resolver returns *)

Record RecordInfo := {
  info_id : Z;
  info_data_source_id : option string;
  info_original_id : option JSON;
  info_import_id : option string;
  info_metatype_id : string;
  info_metatype_name : string;
  info_metadata : option JSON;
  info_created_at : option string;
  info_created_by : option string;
  info_modified_at : option string;
  info_modified_by : option string
}.

Record NodeOutput := {
  out_properties : gmap string JSON;
  out_record : RecordInfo
}.

Inductive ResolverValue :=
| Rows (rows : list NodeOutput)
| Caught (e : Exn).

(** The promise [new Promise((resolve) => ..)]: it settles once, later
    calls of [resolve] do nothing. *)
Record PromiseState := {
  settled : option ResolverValue;
  logged : list string
}.

Definition pending : PromiseState := {| settled := None; logged := [] |}.

Definition resolve (v : ResolverValue) (st : PromiseState) : PromiseState :=
  match settled st with
  | Some _ => st
  | None => {| settled := Some v; logged := logged st |}
  end.

Definition Logger_error (msg : string) (st : PromiseState) : PromiseState :=
  {| settled := settled st; logged := logged st ++ [msg] |}.

Inductive Settlement :=
| Resolved (v : ResolverValue)
| Rejected (e : Exn)
| Pending.

Section Resolver.

Variable stringToValidPropertyName : string -> string.
(** [String(v)] and [Date.prototype.toISOString]. *)
Variable toJSString : JSON -> string.
Variable toISOString : Z -> string.

(** [this.breakQuery(x)] on a value that need not be a string: only
    strings have a [split] method. *)
Definition breakQueryValue (v : option JSON) : Outcome (string * string) :=
  match v with
  | Some (JString s) => Ok (BreakQuery.breakQuery s)
  | _ => Throw (TypeError "query.split is not a function")
  end.

(** [if (input._record) { .. }]. *)
Definition recordPredicates (r : RecordInput) : Outcome (list Predicate) :=
  let p1 :=
    if JS.truthy_string (rec_data_source_id r) then
      let query := BreakQuery.breakQuery (default EmptyString (rec_data_source_id r)) in
      [DataSourceID query.1 query.2]
    else [] in
  obind (if truthy (rec_original_id r) then
           obind (breakQueryValue (rec_original_id r))
             (fun query => Ok [OriginalDataID query.1 query.2])
         else Ok [])
    (fun p2 =>
       let p3 :=
         if JS.truthy_string (rec_import_id r) then
           let query := BreakQuery.breakQuery (default EmptyString (rec_import_id r)) in
           [ImportDataID query.1 query.2]
         else [] in
       Ok (p1 ++ p2 ++ p3)).

(** [if (input._relationship) { .. }]: the first relationship key, the
    first key of the first element of its list, the edge lookup, and the
    id predicate that follows from it. *)
Definition relationshipPredicate
  (findByRelationship : string -> string -> option string -> EdgeLookup)
  (metatype : Metatype) (ri : RelationshipInput) : Outcome Predicate :=
  match ri with
  | [] => Throw (TypeError "Cannot read properties of undefined (reading '0')")
  | (relationship, dests) :: _ =>
      match dests with
      | [] => Throw (TypeError "Cannot convert undefined or null to object")
      | d :: _ =>
          let destination := head (map fst d) in
          match findByRelationship (metatype_name metatype)
                  (JS.replace_first "_" " " relationship) destination with
          | EdgeRejected e => Throw (Raised e)
          | EdgeResult None =>
              Throw (TypeError "Cannot read properties of undefined (reading 'length')")
          | EdgeResult (Some edges) =>
              if negb (length edges =? 0)%nat then
                (* store nodes connected as the origin of this relationship *)
                Ok (Id "in" (IdList (map origin_id edges)))
              else
                (* nothing is returned if no such relationships exist *)
                Ok (Id "eq" (IdNumber 0))
          end
      end
  end.

(** [propertyMap]: the GraphQL name of a key to its real name and type. *)
Definition propertyMap (metatype : Metatype) : gmap string (string * string) :=
  match keys metatype with
  | Some ks =>
      foldl (fun m k => <[stringToValidPropertyName (property_name k)
                            := (property_name k, data_type k)]> m) ∅ ks
  | None => ∅
  end.

(** [Object.keys(input).forEach((key) => ..)]. *)
Fixpoint propertyPredicates (pm : gmap string (string * string))
  (args : list (string * JSON)) : Outcome (list Predicate) :=
  match args with
  | [] => Ok []
  | (key, v) :: rest =>
      if String.eqb key "_record" || String.eqb key "_relationship"
      then propertyPredicates pm rest
      else
        let query := BreakQuery.breakQuery (toJSString v) in
        match pm !! key with
        | None => Throw (TypeError "Cannot read properties of undefined (reading 'name')")
        | Some (name, dt) =>
            obind (propertyPredicates pm rest)
              (fun ps => Ok (Property name query.1 query.2 dt :: ps))
        end
  end.

(** The query as it stands when [repo.list(true, {limit: 10000})] is
    called, or the exception thrown before. *)
Definition buildQuery
  (findByRelationship : string -> string -> option string -> EdgeLookup)
  (containerID : string) (metatype : Metatype) (input : ResolverInput)
  : Outcome Query :=
  obind (match _record input with
         | Some r => recordPredicates r
         | None => Ok []
         end)
    (fun recordPs =>
  obind (match _relationship input with
         | Some ri =>
             obind (relationshipPredicate findByRelationship metatype ri)
               (fun p => Ok [p])
         | None => Ok []
         end)
    (fun relationshipPs =>
  obind (propertyPredicates (propertyMap metatype) (arguments input))
    (fun propertyPs =>
  Ok {| predicates :=
          [ContainerID "eq" containerID; MetatypeID "eq" (metatype_id metatype)]
            ++ recordPs ++ relationshipPs ++ propertyPs;
        loadRelationships := true;
        limit := Some 10000%Z |}))).

(** The row built for one node. *)
Definition reshape (node : Node) : NodeOutput :=
  let properties : gmap string JSON :=
    match node_properties node with
    | Some props =>
        foldl (fun m kv => <[stringToValidPropertyName kv.1 := kv.2]> m) ∅ props
    | None => ∅
    end in
  {| out_properties := delete "_record" properties;
     out_record :=
       {| info_id := node_id node;
          info_data_source_id := node_data_source_id node;
          info_original_id := node_original_data_id node;
          info_import_id := node_import_data_id node;
          info_metatype_id := node_metatype_id node;
          info_metatype_name := node_metatype_name node;
          info_metadata := node_metadata node;
          info_created_at := toISOString <$> node_created_at node;
          info_created_by := node_created_by node;
          info_modified_at := toISOString <$> node_modified_at node;
          info_modified_by := node_modified_by node |} |}.

(** The [.then((results) => ..)] callback: the exception it throws, if
    any, and the promise state it leaves. There is no [return] after
    [resolve([])]. *)
Definition onFulfilled (results : ListResult) (st : PromiseState)
  : Outcome unit * PromiseState :=
  let st1 :=
    if isError results then
      resolve (Rows [])
        (Logger_error ("unable to list nodes " +:+ default "undefined" (error results)) st)
    else st in
  match value results with
  | None =>
      (Throw (TypeError "Cannot read properties of undefined (reading 'forEach')"), st1)
  | Some rows => (Ok tt, resolve (Rows (map reshape rows)) st1)
  end.

(** The [.catch((e) => resolve(e))] handler. *)
Definition onRejected (e : Exn) (st : PromiseState) : PromiseState :=
  resolve (Caught e) st.

Definition settle (outcome : ListOutcome) : PromiseState :=
  match outcome with
  | Fulfilled results =>
      match onFulfilled results pending with
      | (Ok _, st) => st
      | (Throw e, st) => onRejected e st
      end
  | RejectedWith e => onRejected (Raised e) pending
  end.

(** [resolverForMetatype(containerID, metatype)] applied to an argument
    object: how the promise it returns settles, and what was logged. *)
Definition resolverForMetatype
  (findByRelationship : string -> string -> option string -> EdgeLookup)
  (repo : NodeRepository)
  (containerID : string) (metatype : Metatype) (input : ResolverInput)
  : Settlement * list string :=
  match buildQuery findByRelationship containerID metatype input with
  | Throw e => (Rejected e, [])
  | Ok q =>
      let st := settle (list_nodes repo q) in
      (match settled st with
       | Some v => Resolved v
       | None => Pending
       end, logged st)
  end.

End Resolver.


(** The [original_id] filter, when given, is a string. *)
Definition original_id_is_string (input : ResolverInput) : bool :=
  match _record input with
  | Some r =>
      negb (truthy (rec_original_id r))
      || match rec_original_id r with
         | Some (JString _) => true
         | _ => false
         end
  | None => true
  end.

(** Every argument other than the reserved two names a key of the
    metatype, as the [args] of the generated field declare. *)
Definition arguments_declared (stringToValidPropertyName : string -> string)
  (metatype : Metatype) (input : ResolverInput) : bool :=
  forallb (fun kv : string * JSON =>
             String.eqb kv.1 "_record" || String.eqb kv.1 "_relationship"
             || bool_decide (is_Some (propertyMap stringToValidPropertyName metatype !! kv.1)))
    (arguments input).

End Schema.

(** ** The type-mapping repository ([TypeMappingRepository]) *)
Module TypeMappings.

(** *** Domain objects: the fields the repository reads or writes *)

Record KeyMapping := {
  metatype_key_id : option string;
  metatype_relationship_key_id : option string;
  key_other : list (string * string)
}.

Record TypeTransformation := {
  tr_id : option string;
  tr_type_mapping_id : option string;
  tr_container_id : option string;
  tr_data_source_id : option string;
  tr_shape_hash : option string;
  tr_metatype_id : option string;
  tr_metatype_relationship_pair_id : option string;
  tr_keys : option (list KeyMapping);
  tr_created_at : option string;
  tr_created_by : option string;
  tr_modified_at : option string;
  tr_modified_by : option string;
  tr_other : list (string * string)
}.

Record TypeMapping := {
  id : option string;
  container_id : option string;
  data_source_id : option string;
  shape_hash : option string;
  active : bool;
  created_at : option string;
  created_by : option string;
  modified_at : option string;
  modified_by : option string;
  transformations : option (list TypeTransformation);
  removedTransformations : option (list TypeTransformation)
}.

Inductive Result (A : Type) :=
| Success (value : A)
| Failure (error : string).
Arguments Success {A} value.
Arguments Failure {A} error.

Definition isError {A} (r : Result A) : bool :=
  match r with
  | Success _ => false
  | Failure _ => true
  end.

(** [transformation.type_mapping_id = id]. *)
Definition set_type_mapping_id (i : option string) (tr : TypeTransformation)
  : TypeTransformation :=
  {| tr_id := tr_id tr; tr_type_mapping_id := i;
     tr_container_id := tr_container_id tr;
     tr_data_source_id := tr_data_source_id tr;
     tr_shape_hash := tr_shape_hash tr;
     tr_metatype_id := tr_metatype_id tr;
     tr_metatype_relationship_pair_id := tr_metatype_relationship_pair_id tr;
     tr_keys := tr_keys tr;
     tr_created_at := tr_created_at tr; tr_created_by := tr_created_by tr;
     tr_modified_at := tr_modified_at tr; tr_modified_by := tr_modified_by tr;
     tr_other := tr_other tr |}.

Definition set_transformations (trs : option (list TypeTransformation))
  (t : TypeMapping) : TypeMapping :=
  {| id := id t; container_id := container_id t;
     data_source_id := data_source_id t; shape_hash := shape_hash t;
     active := active t;
     created_at := created_at t; created_by := created_by t;
     modified_at := modified_at t; modified_by := modified_by t;
     transformations := trs;
     removedTransformations := removedTransformations t |}.

(** [Object.assign(t, row)]: the columns of the returned row overwrite the
    fields of [t]; the two transformation lists are no columns. *)
Definition assign (t row : TypeMapping) : TypeMapping :=
  {| id := id row; container_id := container_id row;
     data_source_id := data_source_id row; shape_hash := shape_hash row;
     active := active row;
     created_at := created_at row; created_by := created_by row;
     modified_at := modified_at row; modified_by := modified_by row;
     transformations := transformations t;
     removedTransformations := removedTransformations t |}.

(** [if (t.transformations) t.transformations.forEach((tr) =>
      (tr.type_mapping_id = t.id))]. *)
Definition assignMappingID (t : TypeMapping) : TypeMapping :=
  set_transformations (map (set_type_mapping_id (id t)) <$> transformations t) t.

(** Modelled from the spec: [TypeMapping.addTransformation] (the domain
    object is not among the sources) appends to the owned transformations. *)
Definition addTransformation (t : TypeMapping) (trs : list TypeTransformation)
  : TypeMapping :=
  set_transformations (Some (default [] (transformations t) ++ trs)) t.

(** Modelled from the spec: [TypeMapping.replaceTransformations] makes the
    given list the owned transformations. *)
Definition replaceTransformations (t : TypeMapping) (trs : list TypeTransformation)
  : TypeMapping :=
  set_transformations (Some trs) t.

(** *** Persistence, transactions and the cache *)

Record Tables := {
  mapping_rows : list TypeMapping;
  transformation_rows : list TypeTransformation;
  next_id : nat
}.

Inductive Event :=
| TxBegin
| TxCommit
| TxCommitFailed
| TxRollback
| CacheGet (key : string)
| CacheSet (key : string)
| CacheDel (key : string)
| DbRead (statement : string)
| DbWrite (statement : string).

(** Which calls of the persistence layer fail in a run. *)
Record Faults := {
  start_fails : bool;
  retrieve_fails : bool;
  list_transformations_fails : bool;
  mapping_write_fails : bool;
  bulk_delete_fails : bool;
  bulk_update_fails : bool;
  bulk_create_fails : bool;
  commit_fails : bool
}.

(** The persistent store with its committed tables, the working copy of
    the transaction in progress, the cache, and what happened so far. *)
Record World := {
  committed : Tables;
  open_tx : option Tables;
  cache : gmap string TypeMapping;
  events : list Event;
  logs : list string
}.

Inductive PoolClient := Client.

Definition note (e : Event) (w : World) : World :=
  {| committed := committed w; open_tx := open_tx w; cache := cache w;
     events := events w ++ [e]; logs := logs w |}.

Definition with_tx (tx : option Tables) (w : World) : World :=
  {| committed := committed w; open_tx := tx; cache := cache w;
     events := events w; logs := logs w |}.

Definition with_committed (c : Tables) (w : World) : World :=
  {| committed := c; open_tx := open_tx w; cache := cache w;
     events := events w; logs := logs w |}.

Definition with_cache (c : gmap string TypeMapping) (w : World) : World :=
  {| committed := committed w; open_tx := open_tx w; cache := c;
     events := events w; logs := logs w |}.

Definition tableName : string := "data_type_mappings".
Definition transformationTableName : string := "data_type_mapping_transformations".

(** A template literal prints a missing value as [undefined]. *)
Definition show (v : option string) : string := default "undefined" v.

Definition idKey (i : option string) : string := tableName +:+ ":" +:+ show i.

Definition shapeKey (dataSourceID shapeHash : option string) : string :=
  tableName +:+ ":dataSourceID:" +:+ show dataSourceID
    +:+ ":shapeHash:" +:+ show shapeHash.

Section Repository.

Variable faults : Faults.
(** [validationErrors()] of the two domain classes, and the rendering of
    the ids the store hands out. *)
Variable mappingErrors : TypeMapping -> option (list string).
Variable transformationErrors : TypeTransformation -> option (list string).
Variable newId : nat -> string.

(** Modelled from the spec: the transaction calls of the mapper (the
    mappers are not among the sources). A transaction works on a copy of
    the committed tables; committing installs the copy, rolling back drops
    it. *)
Definition startTransaction (w : World) : Result PoolClient * World :=
  if start_fails faults then (Failure "unable to start transaction", w)
  else (Success Client, note TxBegin (with_tx (Some (committed w)) w)).

Definition completeTransaction (transaction : PoolClient) (w : World)
  : Result bool * World :=
  match open_tx w with
  | None => (Failure "no transaction in progress", note TxCommitFailed w)
  | Some work =>
      if commit_fails faults
      then (Failure "commit failed", note TxCommitFailed w)
      else (Success true, note TxCommit (with_tx None (with_committed work w)))
  end.

Definition rollbackTransaction (transaction : PoolClient) (w : World) : World :=
  note TxRollback (with_tx None w).

(** Modelled from the spec: a statement run inside the transaction changes
    its working copy; a failing statement changes nothing. *)
Definition inTransaction {A} (statement : string) (fails : bool)
  (run : Tables -> A * Tables) (w : World) : Result A * World :=
  match open_tx w with
  | None => (Failure (statement +:+ ": no transaction in progress"), w)
  | Some work =>
      if fails then (Failure (statement +:+ " failed"), note (DbWrite statement) w)
      else let '(a, work') := run work in
           (Success a, note (DbWrite statement) (with_tx (Some work') w))
  end.

Definition same_id (a b : option string) : bool :=
  match a, b with
  | Some x, Some y => String.eqb x y
  | _, _ => false
  end.

Definition stamp (userID : string) (t : TypeMapping) : TypeMapping :=
  {| id := id t; container_id := container_id t;
     data_source_id := data_source_id t; shape_hash := shape_hash t;
     active := active t;
     created_at := created_at t; created_by := created_by t;
     modified_at := modified_at t; modified_by := Some userID;
     transformations := None; removedTransformations := None |}.

Definition with_id (i : option string) (t : TypeMapping) : TypeMapping :=
  {| id := i; container_id := container_id t;
     data_source_id := data_source_id t; shape_hash := shape_hash t;
     active := active t;
     created_at := created_at t; created_by := created_by t;
     modified_at := modified_at t; modified_by := modified_by t;
     transformations := transformations t;
     removedTransformations := removedTransformations t |}.

(** Modelled from the spec: [TypeMappingMapper.Update]. *)
Definition Update (userID : string) (t : TypeMapping) (transaction : PoolClient)
  : World -> Result TypeMapping * World :=
  inTransaction "update mapping" (mapping_write_fails faults)
    (fun work =>
       let row := stamp userID t in
       (row,
        {| mapping_rows :=
             map (fun r => if same_id (id r) (id t) then row else r)
               (mapping_rows work);
           transformation_rows := transformation_rows work;
           next_id := next_id work |})).

(** Modelled from the spec: [TypeMappingMapper.CreateOrUpdate]; the pair
    (data source, shape hash) identifies a mapping. *)
Definition same_shape (r t : TypeMapping) : bool :=
  same_id (data_source_id r) (data_source_id t)
  && same_id (shape_hash r) (shape_hash t).

Definition CreateOrUpdate (userID : string) (t : TypeMapping)
  (transaction : PoolClient) : World -> Result TypeMapping * World :=
  inTransaction "create or update mapping" (mapping_write_fails faults)
    (fun work =>
       match find (fun r => same_shape r t) (mapping_rows work) with
       | Some old =>
           let row := with_id (id old) (stamp userID t) in
           (row,
            {| mapping_rows :=
                 map (fun r => if same_shape r t then row else r)
                   (mapping_rows work);
               transformation_rows := transformation_rows work;
               next_id := next_id work |})
       | None =>
           let row := with_id (Some (newId (next_id work))) (stamp userID t) in
           (row,
            {| mapping_rows := mapping_rows work ++ [row];
               transformation_rows := transformation_rows work;
               next_id := S (next_id work) |})
       end).

Definition with_tr_id (i : option string) (tr : TypeTransformation)
  : TypeTransformation :=
  {| tr_id := i; tr_type_mapping_id := tr_type_mapping_id tr;
     tr_container_id := tr_container_id tr;
     tr_data_source_id := tr_data_source_id tr;
     tr_shape_hash := tr_shape_hash tr;
     tr_metatype_id := tr_metatype_id tr;
     tr_metatype_relationship_pair_id := tr_metatype_relationship_pair_id tr;
     tr_keys := tr_keys tr;
     tr_created_at := tr_created_at tr; tr_created_by := tr_created_by tr;
     tr_modified_at := tr_modified_at tr; tr_modified_by := tr_modified_by tr;
     tr_other := tr_other tr |}.

Definition stamp_tr (userID : string) (tr : TypeTransformation)
  : TypeTransformation :=
  {| tr_id := tr_id tr; tr_type_mapping_id := tr_type_mapping_id tr;
     tr_container_id := tr_container_id tr;
     tr_data_source_id := tr_data_source_id tr;
     tr_shape_hash := tr_shape_hash tr;
     tr_metatype_id := tr_metatype_id tr;
     tr_metatype_relationship_pair_id := tr_metatype_relationship_pair_id tr;
     tr_keys := tr_keys tr;
     tr_created_at := tr_created_at tr; tr_created_by := tr_created_by tr;
     tr_modified_at := tr_modified_at tr; tr_modified_by := Some userID;
     tr_other := tr_other tr |}.

(** Modelled from the spec: bulk delete, update and create of
    transformations. *)
Definition BulkDelete (removed : list TypeTransformation) (transaction : PoolClient)
  : World -> Result bool * World :=
  inTransaction "delete transformations" (bulk_delete_fails faults)
    (fun work =>
       (true,
        {| mapping_rows := mapping_rows work;
           transformation_rows :=
             List.filter (fun r => negb (existsb (fun d => same_id (tr_id r) (tr_id d)) removed))
               (transformation_rows work);
           next_id := next_id work |})).

Definition BulkUpdate (userID : string) (trs : list TypeTransformation)
  (transaction : PoolClient) : World -> Result (list TypeTransformation) * World :=
  inTransaction "update transformations" (bulk_update_fails faults)
    (fun work =>
       let rows := map (stamp_tr userID) trs in
       (rows,
        {| mapping_rows := mapping_rows work;
           transformation_rows :=
             map (fun r => default r (find (fun u => same_id (tr_id u) (tr_id r)) rows))
               (transformation_rows work);
           next_id := next_id work |})).

Fixpoint number (n : nat) (trs : list TypeTransformation) : list TypeTransformation :=
  match trs with
  | [] => []
  | tr :: rest => with_tr_id (Some (newId n)) tr :: number (S n) rest
  end.

Definition BulkCreate (userID : string) (trs : list TypeTransformation)
  (transaction : PoolClient) : World -> Result (list TypeTransformation) * World :=
  inTransaction "create transformations" (bulk_create_fails faults)
    (fun work =>
       let rows := number (next_id work) (map (stamp_tr userID) trs) in
       (rows,
        {| mapping_rows := mapping_rows work;
           transformation_rows := transformation_rows work ++ rows;
           next_id := next_id work + length trs |})).

(** Modelled from the spec: reads of the committed tables. *)
Definition Retrieve (i : string) (w : World) : Result TypeMapping * World :=
  let w1 := note (DbRead "retrieve mapping") w in
  if retrieve_fails faults then (Failure "unable to retrieve mapping", w1)
  else match find (fun r => same_id (id r) (Some i)) (mapping_rows (committed w)) with
       | Some row => (Success row, w1)
       | None => (Failure "mapping not found", w1)
       end.


Definition ListForTypeMapping (i : option string) (w : World)
  : Result (list TypeTransformation) * World :=
  let w1 := note (DbRead "list transformations") w in
  if list_transformations_fails faults
  then (Failure "unable to list transformations", w1)
  else (Success (List.filter (fun r => same_id (tr_type_mapping_id r) i)
                   (transformation_rows (committed w))), w1).

(** *** The cache *)

Definition getCached (i : string) (w : World) : option TypeMapping * World :=
  (cache w !! idKey (Some i), note (CacheGet (idKey (Some i))) w).


Definition setCache (t : TypeMapping) (w : World) : World :=
  let w1 := note (CacheSet (idKey (id t))) (with_cache (<[idKey (id t) := t]> (cache w)) w) in
  note (CacheSet (shapeKey (data_source_id t) (shape_hash t)))
    (with_cache (<[shapeKey (data_source_id t) (shape_hash t) := t]> (cache w1)) w1).

Definition deleteCached (t : TypeMapping) (w : World) : World :=
  let w1 := note (CacheDel (idKey (id t))) (with_cache (delete (idKey (id t)) (cache w)) w) in
  note (CacheDel (shapeKey (data_source_id t) (shape_hash t)))
    (with_cache (delete (shapeKey (data_source_id t) (shape_hash t)) (cache w1)) w1).

Definition deleteCachedTransformation (tr : TypeTransformation) (w : World) : World :=
  let k := transformationTableName +:+ ":" +:+ show (tr_id tr) in
  note (CacheDel k) (with_cache (delete k (cache w)) w).

(** *** [findByID] and [findByShapeHash] *)

Definition findByID (i : string) (loadTransformations : bool) (w : World)
  : Result TypeMapping * World :=
  match getCached i w with
  | (Some cached, w1) => (Success cached, w1)
  | (None, w1) =>
      match Retrieve i w1 with
      | (Failure e, w2) => (Failure e, w2)
      | (Success retrieved, w2) =>
          if loadTransformations then
            (* we do not want to cache this object unless we have the
               entire object *)
            let '(listed, w3) := ListForTypeMapping (id retrieved) w2 in
            let retrieved1 :=
              match listed with
              | Success trs => addTransformation retrieved trs
              | Failure _ => retrieved
              end in
            (Success retrieved1, setCache retrieved1 w3)
          else (Success retrieved, w2)
      end
  end.


(** *** [saveTransformations] *)

(** [if (!transaction) { .. startTransaction() .. }]: the transaction to
    work in and whether this call opened it. *)
Definition ensureTransaction (transaction : option PoolClient) (w : World)
  : Result (PoolClient * bool) * World :=
  match transaction with
  | Some c => (Success (c, false), w)
  | None =>
      match startTransaction w with
      | (Failure _, w1) => (Failure "unable to initiate database transaction", w1)
      | (Success c, w1) => (Success (c, true), w1)
      end
  end.

(** [if (internalTransaction) await rollbackTransaction(transaction)]. *)
Definition rollbackIfInternal (internalTransaction : bool)
  (transaction : PoolClient) (w : World) : World :=
  if internalTransaction then rollbackTransaction transaction w else w.

(** The [for (const transformation of t.transformations)] loop: the
    transformations to update and to create, or the validation failure;
    the transformations as the loop leaves them; the world. *)
Fixpoint classify (mappingID : option string) (trs : list TypeTransformation)
  (w : World)
  : Result (list TypeTransformation * list TypeTransformation)
    * list TypeTransformation * World :=
  match trs with
  | [] => (Success ([], []), [], w)
  | transformation :: rest =>
      let w1 := deleteCachedTransformation transformation w in
      (* set transformation's id to the parent *)
      let tr := set_type_mapping_id mappingID transformation in
      match transformationErrors tr with
      | Some errors =>
          (Failure ("one or more transformations do not pass validation "
                      +:+ JS.join "," errors), tr :: rest, w1)
      | None =>
          match classify mappingID rest w1 with
          | (Failure e, rest', w2) => (Failure e, tr :: rest', w2)
          | (Success (upd, cre), rest', w2) =>
              (Success (if JS.truthy_string (tr_id tr)
                        then (tr :: upd, cre) else (upd, tr :: cre)),
               tr :: rest', w2)
          end
      end
  end.

Definition commitIfInternal (internalTransaction : bool)
  (transaction : PoolClient) (w : World) : Result bool * World :=
  if internalTransaction then completeTransaction transaction w
  else (Success true, w).

(** [if (t.removedTransformations && t.removedTransformations.length > 0)
     { .. BulkDelete .. }]. *)
Definition removeStep (t : TypeMapping) (transaction : PoolClient) (w : World)
  : Result bool * World :=
  match removedTransformations t with
  | Some (r :: rs) =>
      BulkDelete (r :: rs) transaction
        (foldl (fun w tr => deleteCachedTransformation tr w) w (r :: rs))
  | _ => (Success true, w)
  end.

(** [if (transformationsUpdate.length > 0) { .. BulkUpdate .. }]. *)
Definition updateStep (userID : string) (transformationsUpdate : list TypeTransformation)
  (transaction : PoolClient) (w : World)
  : Result (list TypeTransformation) * World :=
  match transformationsUpdate with
  | [] => (Success [], w)
  | _ => BulkUpdate userID transformationsUpdate transaction w
  end.

(** [if (transformationsCreate.length > 0) { .. BulkCreate .. }]. *)
Definition createStep (userID : string) (transformationsCreate : list TypeTransformation)
  (transaction : PoolClient) (w : World)
  : Result (list TypeTransformation) * World :=
  match transformationsCreate with
  | [] => (Success [], w)
  | _ => BulkCreate userID transformationsCreate transaction w
  end.

(** The body of [saveTransformations] once the transaction to work in is
    settled. *)
Definition saveTransformationsWithin (userID : string) (t : TypeMapping)
  (transaction : PoolClient) (internalTransaction : bool) (w1 : World)
  : Result bool * TypeMapping * World :=
      match removeStep t transaction w1 with
      | (Failure e, w2) =>
          (Failure ("unable to delete transformations " +:+ e), t,
           rollbackIfInternal internalTransaction transaction w2)
      | (Success _, w2) =>
          match transformations t with
          | Some [] =>
              match commitIfInternal internalTransaction transaction w2 with
              | (Failure e, w3) => (Failure e, t, w3)
              | (Success _, w3) => (Success true, t, w3)
              end
          | None =>
              match commitIfInternal internalTransaction transaction w2 with
              | (Failure e, w3) => (Failure e, t, w3)
              | (Success _, w3) => (Success true, replaceTransformations t [], w3)
              end
          | Some trs =>
              match classify (id t) trs w2 with
              | (Failure e, trs', w3) =>
                  (Failure e, set_transformations (Some trs') t,
                   rollbackIfInternal internalTransaction transaction w3)
              | (Success (transformationsUpdate, transformationsCreate), trs', w3) =>
                  let t1 := set_transformations (Some trs') t in
                  match updateStep userID transformationsUpdate transaction w3 with
                  | (Failure e, w4) =>
                      (Failure e, t1,
                       rollbackIfInternal internalTransaction transaction w4)
                  | (Success updated, w4) =>
                      match createStep userID transformationsCreate transaction w4 with
                      | (Failure e, w5) =>
                          (Failure e, t1,
                           rollbackIfInternal internalTransaction transaction w5)
                      | (Success created, w5) =>
                          match commitIfInternal internalTransaction transaction w5 with
                          | (Failure e, w6) => (Failure e, t1, w6)
                          | (Success _, w6) =>
                              (Success true,
                               replaceTransformations t1 (updated ++ created), w6)
                          end
                      end
                  end
              end
          end
      end.

Definition saveTransformations (userID : string) (t : TypeMapping)
  (transaction : option PoolClient) (w : World)
  : Result bool * TypeMapping * World :=
  match ensureTransaction transaction w with
  | (Failure e, w1) => (Failure e, t, w1)
  | (Success (transaction, internalTransaction), w1) =>
      saveTransformationsWithin userID t transaction internalTransaction w1
  end.

(** *** [save] *)

Definition save (t : TypeMapping) (userID : string) (saveTransformations_ : bool)
  (transaction : option PoolClient) (w : World)
  : Result bool * TypeMapping * World :=
  match mappingErrors t with
  | Some errors =>
      (Failure ("type mapping does not pass validation " +:+ JS.join "," errors),
       t, w)
  | None =>
      match ensureTransaction transaction w with
      | (Failure e, w1) => (Failure e, t, w1)
      | (Success (transaction, internalTransaction), w1) =>
          if JS.truthy_string (id t) then
            let w2 := deleteCached t w1 in
            match Update userID t transaction w2 with
            | (Failure e, w3) => (Failure e, t, rollbackTransaction transaction w3)
            | (Success row, w3) =>
                let t1 := assignMappingID (assign t row) in
                match (if saveTransformations_
                       then saveTransformations userID t1 (Some transaction) w3
                       else (Success true, t1, w3)) with
                | (Failure e, t2, w4) =>
                    (Failure ("unable to save mapping transformations " +:+ e), t2,
                     rollbackIfInternal internalTransaction transaction w4)
                | (Success _, t2, w4) =>
                    match completeTransaction transaction w4 with
                    | (Failure e, w5) =>
                        (Failure ("unable to commit changes to database " +:+ e), t2,
                         rollbackIfInternal internalTransaction transaction w5)
                    | (Success _, w5) => (Success true, t2, w5)
                    end
                end
            end
          else
            match CreateOrUpdate userID t transaction w1 with
            | (Failure e, w2) =>
                (Failure e, t, rollbackIfInternal internalTransaction transaction w2)
            | (Success row, w2) =>
                let t1 := assignMappingID (assign t row) in
                match (if saveTransformations_
                       then saveTransformations userID t1 (Some transaction) w2
                       else (Success true, t1, w2)) with
                | (Failure e, t2, w3) =>
                    (Failure ("unable to save mapping transformations " +:+ e), t2,
                     rollbackTransaction transaction w3)
                | (Success _, t2, w3) =>
                    if internalTransaction then
                      match completeTransaction transaction w3 with
                      | (Failure e, w4) =>
                          (Failure ("unable to commit changes to database " +:+ e), t2,
                           rollbackTransaction transaction w4)
                      | (Success _, w4) => (Success true, t2, w4)
                      end
                    else (Success true, t2, w3)
                end
            end
      end
  end.

End Repository.

(** *** [prepareForImport] and [importToDataSource] *)

Section ImportPreparation.

(** [populateKeys] and [backfillIDs] belong to the transformation
    repository, which is not among the sources. *)
Variable populateKeys : TypeTransformation -> TypeTransformation.
Variable backfillIDs :
  option string -> list TypeTransformation -> list TypeTransformation.

Definition clearKeyIDs (k : KeyMapping) : KeyMapping :=
  {| metatype_key_id := None; metatype_relationship_key_id := None;
     key_other := key_other k |}.

(** The body of the loop over the transformations. *)
Definition prepareTransformation (separateContainer : bool)
  (tr : TypeTransformation) : TypeTransformation :=
  let tr1 :=
    if separateContainer then
      let p := populateKeys tr in
      {| tr_id := tr_id p; tr_type_mapping_id := tr_type_mapping_id p;
         tr_container_id := tr_container_id p;
         tr_data_source_id := tr_data_source_id p;
         tr_shape_hash := tr_shape_hash p;
         tr_metatype_id := None;
         tr_metatype_relationship_pair_id := None;
         tr_keys := map clearKeyIDs <$> tr_keys p;
         tr_created_at := tr_created_at p; tr_created_by := tr_created_by p;
         tr_modified_at := tr_modified_at p; tr_modified_by := tr_modified_by p;
         tr_other := tr_other p |}
    else tr in
  (* now clear all the id's *)
  {| tr_id := None; tr_type_mapping_id := None;
     tr_container_id := None; tr_data_source_id := None;
     tr_shape_hash := None;
     tr_metatype_id := tr_metatype_id tr1;
     tr_metatype_relationship_pair_id := tr_metatype_relationship_pair_id tr1;
     tr_keys := tr_keys tr1;
     tr_created_at := None; tr_created_by := None;
     tr_modified_at := None; tr_modified_by := None;
     tr_other := tr_other tr1 |}.

Definition prepareForImport (typeMapping : TypeMapping) (separateContainer : bool)
  : TypeMapping :=
  {| id := None;
     container_id := if separateContainer then None else container_id typeMapping;
     data_source_id := None;
     shape_hash := shape_hash typeMapping;
     active := active typeMapping;
     created_at := None; created_by := None;
     modified_at := None; modified_by := None;
     transformations :=
       map (prepareTransformation separateContainer) <$> transformations typeMapping;
     removedTransformations := removedTransformations typeMapping |}.

(** The target data source of an import. *)
Record DataSource := {
  source_id : option string;
  source_container_id : option string
}.

Definition differ (a b : option string) : bool :=
  match a, b with
  | Some x, Some y => negb (String.eqb x y)
  | None, None => false
  | _, _ => true
  end.

(** [importToDataSource], one mapping: the mapping as it is handed to
    [save]. *)
Definition mappingForImport (target : DataSource) (mapping : TypeMapping)
  : TypeMapping :=
  let prepared :=
    prepareForImport mapping
      (differ (container_id mapping) (source_container_id target)) in
  {| id := id prepared;
     container_id := source_container_id target;
     data_source_id := source_id target;
     shape_hash := shape_hash prepared;
     active := false;
     created_at := created_at prepared; created_by := created_by prepared;
     modified_at := modified_at prepared; modified_by := modified_by prepared;
     transformations :=
       backfillIDs (source_container_id target) <$> transformations prepared;
     removedTransformations := removedTransformations prepared |}.

End ImportPreparation.

(** *** Notions used to state the properties of [save] *)

(** The events of the transaction itself. *)
Definition transactional (e : Event) : bool :=
  match e with
  | TxBegin | TxCommit | TxCommitFailed | TxRollback => true
  | _ => false
  end.

(** Between two worlds nothing was committed and the transaction was
    neither begun nor ended. *)
Definition quiet (w w' : World) : Prop :=
  committed w' = committed w
  /\ exists new, events w' = events w ++ new
                 /\ List.filter transactional new = [].

(** The events of the transaction itself that happened between two
    worlds. *)
Definition transactions_between (w w' : World) (txs : list Event) : Prop :=
  exists new, events w' = events w ++ new
              /\ List.filter transactional new = txs.

(** Since the first world a transaction was begun and is still in
    progress in the second, with nothing committed. *)
Definition begun (w w' : World) : Prop :=
  transactions_between w w' [TxBegin] /\ committed w' = committed w.

(** A transformation fails validation whatever mapping it is attached to. *)
Definition fails_validation
  (transformationErrors : TypeTransformation -> option (list string))
  (tr : TypeTransformation) : Prop :=
  forall i, transformationErrors (set_type_mapping_id i tr) <> None.

(** Some transformation of the mapping fails validation, or a bulk write
    that the mapping calls for fails. *)
Definition transformation_failure (faults : Faults)
  (transformationErrors : TypeTransformation -> option (list string))
  (t : TypeMapping) : Prop :=
  (exists tr, In tr (default [] (transformations t))
              /\ fails_validation transformationErrors tr)
  \/ (bulk_delete_fails faults = true
      /\ default [] (removedTransformations t) <> [])
  \/ (bulk_update_fails faults = true
      /\ exists tr, In tr (default [] (transformations t))
                    /\ JS.truthy_string (tr_id tr) = true)
  \/ (bulk_create_fails faults = true
      /\ exists tr, In tr (default [] (transformations t))
                    /\ JS.truthy_string (tr_id tr) = false).

End TypeMappings.

(** ** The changelist repository ([ChangelistRepository], [ChangelistMapper]) *)
Module Changelists.

Inductive Status :=
| pending
| approved
| rejected
| applied
| deprecated
| ready.

Record ChangelistRecord := {
  id : option string;
  container_id : option string;
  name : option string;
  status : Status;
  modified_at : option string;
  modified_by : option string;
  base_ontology_version_id : option string
}.

Record ChangelistApproval := {
  approval_id : option string;
  changelist_id : option string;
  approved_by : option string;
  approved_at : option string
}.

Inductive Result (A : Type) :=
| Success (value : A)
| Failure (error : string).
Arguments Success {A} value.
Arguments Failure {A} error.

(** The two tables, the clock behind [NOW()] and the next approval id. *)
Record Database := {
  changelists : list ChangelistRecord;
  changelist_approvals : list ChangelistApproval;
  now : string;
  next_approval : nat
}.

(** Which statements fail in a run. *)
Record Faults := {
  set_status_fails : bool;
  create_approval_fails : bool;
  delete_approvals_fails : bool
}.

Definition is_id (i : string) (o : option string) : bool :=
  match o with
  | Some x => String.eqb x i
  | None => false
  end.

Section Repository.

Variable faults : Faults.
Variable newId : nat -> string.

(** [setStatusStatement]:
    [UPDATE changelists SET status = $2, modified_at = NOW(),
     modified_by = $3 WHERE id = $1]. *)
Definition setStatusStatement (i userID : string) (s : Status)
  (db : Database) : Database :=
  {| changelists :=
       map (fun c =>
              if is_id i (id c) then
                {| id := id c; container_id := container_id c; name := name c;
                   status := s;
                   modified_at := Some (now db);
                   modified_by := Some userID;
                   base_ontology_version_id := base_ontology_version_id c |}
              else c)
         (changelists db);
     changelist_approvals := changelist_approvals db;
     now := now db;
     next_approval := next_approval db |}.

(** [ChangelistMapper.SetStatus]. *)
Definition SetStatus (i userID : string) (s : Status) (db : Database)
  : Result bool * Database :=
  if set_status_fails faults then (Failure "unable to run statement", db)
  else (Success true, setStatusStatement i userID s db).

(** Modelled from the spec: [ChangelistApprovalMapper.Create] (the approval
    mapper is not among the sources) inserts one approval row. *)
Definition CreateApproval (userID : string) (a : ChangelistApproval)
  (db : Database) : Result ChangelistApproval * Database :=
  if create_approval_fails faults then (Failure "unable to run statement", db)
  else
    let row := {| approval_id := Some (newId (next_approval db));
                  changelist_id := changelist_id a;
                  approved_by := approved_by a;
                  approved_at := Some (now db) |} in
    (Success row,
     {| changelists := changelists db;
        changelist_approvals := changelist_approvals db ++ [row];
        now := now db;
        next_approval := S (next_approval db) |}).

(** Modelled from the spec: [ChangelistApprovalMapper.DeleteByChangelist]
    deletes the approval rows of the changelist. *)
Definition DeleteByChangelist (changelistID : string) (db : Database)
  : Result bool * Database :=
  if delete_approvals_fails faults then (Failure "unable to run statement", db)
  else
    (Success true,
     {| changelists := changelists db;
        changelist_approvals :=
          List.filter (fun a => negb (is_id changelistID (changelist_id a)))
            (changelist_approvals db);
        now := now db;
        next_approval := next_approval db |}).

(** [approveChangelist(approver, changelistID)]. *)
Definition approveChangelist (approverID changelistID : string) (db : Database)
  : Result ChangelistApproval * Database :=
  let '(_, db1) := SetStatus changelistID approverID approved db in
  CreateApproval approverID
    {| approval_id := None; changelist_id := Some changelistID;
       approved_by := Some approverID; approved_at := None |} db1.

(** [revokeApproval(changelistID, approver)]. *)
Definition revokeApproval (changelistID approverID : string) (db : Database)
  : Result bool * Database :=
  let '(_, db1) := SetStatus changelistID approverID rejected db in
  DeleteByChangelist changelistID db1.

(** [listApprovals(changelistID)]. *)
Definition listApprovals (changelistID : string) (db : Database)
  : list ChangelistApproval :=
  List.filter (fun a => is_id changelistID (changelist_id a))
    (changelist_approvals db).

End Repository.

End Changelists.

(** ** The relationship input types of [ForContainer] *)
Module RelationshipInputs.
Import Schema.

(** The [fields] thunk of [destinationInputType]: a Boolean for every
    destination of every relationship under [metatypePairList[metatype.name]]
    (the name is used as it is, not sanitized). *)
Definition destinationInputFields
  (pairList : gmap string (gmap string (gmap string GraphQLType)))
  (metatype : Metatype) : gmap string GraphQLType :=
  match pairList !! metatype_name metatype with
  | Some rels =>
      map_fold (fun (pair : string) (dests : gmap string GraphQLType) fields =>
                  map_fold (fun (dest : string) (_ : GraphQLType) fields =>
                              <[dest := GraphQLBoolean]> fields)
                    fields dests)
        ∅ rels
  | None => ∅
  end.

(** The [fields] thunk of [relationshipInputType]: a list of destination
    inputs for every relationship under [metatypePairList[metatype.name]]. *)
Definition relationshipInputFields
  (pairList : gmap string (gmap string (gmap string GraphQLType)))
  (metatype : Metatype) : gmap string GraphQLType :=
  match pairList !! metatype_name metatype with
  | Some rels =>
      map_fold (fun (rel : string) (_ : gmap string GraphQLType) fields =>
                  <[rel := GraphQLList
                             (GraphQLNamed (metatype_name metatype +:+ "_destination_input"))]>
                    fields)
        ∅ rels
  | None => ∅
  end.


End RelationshipInputs.

(** ** Notions used to state further properties of the repository *)
Module TypeMappingNotions.
Import TypeMappings.

(** Every entry of the cache of the second world was in the cache of the
    first, with the same value: nothing was added or overwritten. *)
Definition cache_shrinks (w w' : World) : Prop :=
  forall k v, cache w' !! k = Some v -> cache w !! k = Some v.

(** Every call of the persistence layer that a save makes works, up to the
    commit, which fails. *)
Definition only_commit_fails (faults : Faults) : Prop :=
  start_fails faults = false
  /\ mapping_write_fails faults = false
  /\ bulk_delete_fails faults = false
  /\ bulk_update_fails faults = false
  /\ bulk_create_fails faults = false
  /\ commit_fails faults = true.

End TypeMappingNotions.

(** ** Sample data to run the definitions on *)
Module Samples.
Import Schema.

(** A sanitizer to run the generator with: spaces become underscores. *)
Fixpoint underscored (s : string) : string :=
  match s with
  | EmptyString => EmptyString
  | String c rest =>
      String (if Ascii.eqb c " " then "_"%char else c) (underscored rest)
  end.

Definition flow_rate : MetatypeKey :=
  {| key_name := "Flow Rate"; property_name := "flow rate";
     data_type := "number"; options := None |}.

Definition installed : MetatypeKey :=
  {| key_name := "Installed"; property_name := "installed";
     data_type := "date"; options := None |}.

Definition condition : MetatypeKey :=
  {| key_name := "Condition"; property_name := "condition";
     data_type := "enumeration"; options := Some ["new"; "worn"] |}.

Definition Pump : Metatype :=
  {| metatype_id := Some "17"; metatype_name := "Pump";
     metatype_description := "a pump";
     keys := Some [flow_rate; installed; condition] |}.

Definition feeds : MetatypeRelationshipPair :=
  {| pair_id := "1"; pair_name := "Pump : feeds : Storage Tank" |}.

Definition drained_by : MetatypeRelationshipPair :=
  {| pair_id := "2"; pair_name := "Storage Tank : drained by : Pump" |}.

(** A graph with two pumps and no edge. *)
Definition pump (i : Z) (source : string) : Node :=
  {| node_id := i; node_container_id := "1"; node_metatype_id := "17";
     node_metatype_name := "Pump";
     node_data_source_id := Some source;
     node_original_data_id := Some (JNumber i);
     node_import_data_id := None;
     node_properties := Some [("flow rate", JNumber 12)];
     node_metadata := None;
     node_created_at := Some 0%Z; node_created_by := Some "admin";
     node_modified_at := None; node_modified_by := None |}.

Definition no_edges (origin relationship : string) (destination : option string)
  : EdgeLookup := EdgeResult (Some []).

Definition holds_all (p : Predicate) (n : Node) : bool := true.

Definition pumps : NodeRepository :=
  {| nodes := [pump 1 "5"; pump 2 "5"]; failure := None; holds := holds_all |}.

Definition pumps_unreachable : NodeRepository :=
  {| nodes := [pump 1 "5"; pump 2 "5"];
     failure := Some (Rejects "connection terminated");
     holds := holds_all |}.

Fixpoint show_json (v : JSON) : string :=
  match v with
  | JString s => s
  | JBool true => "true"
  | JBool false => "false"
  | JNull => "null"
  | JNumber z => NilZero.string_of_int (Z.to_int z)
  | JArray items => JS.join "," (map show_json items)
  end.

Definition show_date (ms : Z) : string := "1970-01-01T00:00:00.000Z".

Definition feeding_a_tank : ResolverInput :=
  {| _record := Some {| rec_data_source_id := Some "5"; rec_original_id := None;
                        rec_import_id := None;
                        rec_limit := Some 10%Z; rec_page := Some 3%Z |};
     _relationship := Some [("feeds", [[("Storage_Tank", true)]])];
     arguments := [("flow_rate", JString "> 10")] |}.

Definition fast_pumps : ResolverInput :=
  {| _record := None; _relationship := None;
     arguments := [("flow_rate", JString "> 10")] |}.

End Samples.

Module MappingSamples.
Import TypeMappings.

Definition no_faults : Faults :=
  {| start_fails := false; retrieve_fails := false;
     list_transformations_fails := false; mapping_write_fails := false;
     bulk_delete_fails := false; bulk_update_fails := false;
     bulk_create_fails := false; commit_fails := false |}.

Definition create_fails : Faults :=
  {| start_fails := false; retrieve_fails := false;
     list_transformations_fails := false; mapping_write_fails := false;
     bulk_delete_fails := false; bulk_update_fails := false;
     bulk_create_fails := true; commit_fails := false |}.

Definition listing_fails : Faults :=
  {| start_fails := false; retrieve_fails := false;
     list_transformations_fails := true; mapping_write_fails := false;
     bulk_delete_fails := false; bulk_update_fails := false;
     bulk_create_fails := false; commit_fails := false |}.

Definition valid_mapping (t : TypeMapping) : option (list string) := None.
Definition valid_transformation (tr : TypeTransformation) : option (list string) := None.

Definition numbered (n : nat) : string := String (ascii_of_nat (48 + n)) EmptyString.

Definition keep_keys (tr : TypeTransformation) : TypeTransformation := tr.
Definition keep_ids (container : option string) (trs : list TypeTransformation)
  : list TypeTransformation := trs.

Definition to_pump (i mapping : option string) : TypeTransformation :=
  {| tr_id := i; tr_type_mapping_id := mapping;
     tr_container_id := Some "1"; tr_data_source_id := Some "5";
     tr_shape_hash := Some "9f2c";
     tr_metatype_id := Some "17"; tr_metatype_relationship_pair_id := None;
     tr_keys := Some [ {| metatype_key_id := Some "40";
                          metatype_relationship_key_id := None;
                          key_other := [("key", "flow")] |} ];
     tr_created_at := Some "2021-03-01"; tr_created_by := Some "admin";
     tr_modified_at := Some "2021-03-02"; tr_modified_by := Some "admin";
     tr_other := [("metatype_name", "Pump")] |}.

Definition pump_mapping (i : option string)
  (trs : option (list TypeTransformation)) : TypeMapping :=
  {| id := i; container_id := Some "1"; data_source_id := Some "5";
     shape_hash := Some "9f2c"; active := true;
     created_at := Some "2021-03-01"; created_by := Some "admin";
     modified_at := Some "2021-03-02"; modified_by := Some "admin";
     transformations := trs; removedTransformations := None |}.

Definition empty_world : World :=
  {| committed := {| mapping_rows := []; transformation_rows := []; next_id := 1 |};
     open_tx := None; cache := ∅; events := []; logs := [] |}.

(** A store that holds the mapping 7 with one transformation; nothing is
    cached. *)
Definition stored_world : World :=
  {| committed := {| mapping_rows := [pump_mapping (Some "7") None];
                     transformation_rows := [to_pump (Some "3") (Some "7")];
                     next_id := 8 |};
     open_tx := None; cache := ∅; events := []; logs := [] |}.

Definition other_source : DataSource :=
  {| source_id := Some "6"; source_container_id := Some "2" |}.

End MappingSamples.

Module ChangelistSamples.
Import Changelists.

Definition no_faults : Faults :=
  {| set_status_fails := false; create_approval_fails := false;
     delete_approvals_fails := false |}.

Definition numbered (n : nat) : string := String (ascii_of_nat (48 + n)) EmptyString.

Definition changelist (i : string) (s : Status) : ChangelistRecord :=
  {| id := Some i; container_id := Some "1"; name := Some "edits";
     status := s; modified_at := None; modified_by := None;
     base_ontology_version_id := None |}.

Definition approval (i c : string) : ChangelistApproval :=
  {| approval_id := Some i; changelist_id := Some c;
     approved_by := Some "admin"; approved_at := Some "2021-03-01" |}.

Definition reviewed : Database :=
  {| changelists := [changelist "4" approved; changelist "5" approved];
     changelist_approvals := [approval "1" "4"; approval "2" "5"; approval "3" "4"];
     now := "2021-03-02"; next_approval := 4 |}.

End ChangelistSamples.

(** More inputs of the resolver and of the schema generator. *)
Module MoreSamples.
Import Schema Samples.


(** An [original_id] filter given as a number. *)
Definition by_number : ResolverInput :=
  {| _record := Some {| rec_data_source_id := None;
                        rec_original_id := Some (JNumber 7);
                        rec_import_id := None;
                        rec_limit := None; rec_page := None |};
     _relationship := None; arguments := [] |}.

(** A [_relationship] argument that is the empty object. *)
Definition by_no_relationship : ResolverInput :=
  {| _record := None; _relationship := Some []; arguments := [] |}.

(** The pump 1 feeds the tank 9. *)
Definition one_edge (origin relationship : string) (destination : option string)
  : EdgeLookup :=
  EdgeResult (Some [ {| edge_id := 100; origin_id := 1; destination_id := 9 |} ]).

Definition Tank : Metatype :=
  {| metatype_id := Some "18"; metatype_name := "Storage Tank";
     metatype_description := "a tank"; keys := None |}.

End MoreSamples.

(** More states of the store of the type mappings. *)
Module MoreMappingSamples.
Import TypeMappings MappingSamples.

Definition row_write_fails : Faults :=
  {| start_fails := false; retrieve_fails := false;
     list_transformations_fails := false; mapping_write_fails := true;
     bulk_delete_fails := false; bulk_update_fails := false;
     bulk_create_fails := false; commit_fails := false |}.

Definition commit_drops : Faults :=
  {| start_fails := false; retrieve_fails := false;
     list_transformations_fails := false; mapping_write_fails := false;
     bulk_delete_fails := false; bulk_update_fails := false;
     bulk_create_fails := false; commit_fails := true |}.

(** The store of [stored_world] with a transaction of the caller in
    progress. *)
Definition in_transaction : World :=
  {| committed := committed stored_world;
     open_tx := Some (committed stored_world);
     cache := ∅; events := []; logs := [] |}.


End MoreMappingSamples.

Module MoreChangelistSamples.
Import Changelists.

Definition status_fails : Faults :=
  {| set_status_fails := true; create_approval_fails := false;
     delete_approvals_fails := false |}.

End MoreChangelistSamples.

(** * Theorems *)

(** ** [breakQuery] *)
Module BreakQueryFacts.
Import BreakQuery.

Lemma prefix_space (c : ascii) (rest : string) :
  String.prefix " " (String c rest) = Ascii.eqb c " ".
Proof.
  change (String.prefix " " (String c rest))
    with (if ascii_dec " " c then String.prefix EmptyString rest else false).
  destruct (ascii_dec " " c) as [<- | Hne].
  - destruct rest; reflexivity.
  - symmetry. apply Ascii.eqb_neq. congruence.
Qed.

Lemma app_String (a : ascii) (s1 s2 : string) :
  String a s1 +:+ s2 = String a (s1 +:+ s2).
Proof. reflexivity. Qed.

Lemma app_empty_l (s : string) : EmptyString +:+ s = s.
Proof. reflexivity. Qed.

Lemma app_cons_assoc (cur : string) (c : ascii) (s : string) :
  (cur +:+ String c EmptyString) +:+ s = cur +:+ String c s.
Proof.
  induction cur as [| a cur IH]; [reflexivity |].
  rewrite !app_String. f_equal. exact IH.
Qed.

Lemma app_empty_r (s : string) : s +:+ EmptyString = s.
Proof.
  induction s as [| a s IH]; [reflexivity |].
  rewrite app_String. f_equal. exact IH.
Qed.

Lemma split_from_nonempty (sep : string) (s : string) :
  forall skip cur, JS.split_from sep skip cur s <> [].
Proof.
  induction s as [| c s IH]; intros skip cur; cbn [JS.split_from]; [done |].
  destruct skip; [| apply IH].
  destruct (String.prefix sep (String c s)); [done | apply IH].
Qed.

Lemma join_cons (sep p : string) (ps : list string) :
  ps <> [] -> JS.join sep (p :: ps) = p +:+ sep +:+ JS.join sep ps.
Proof. destruct ps; [congruence | reflexivity]. Qed.

(** Joining the pieces of a split on the space gives the string back. *)
Lemma join_split_from (s : string) :
  forall cur, JS.join " " (JS.split_from " " 0 cur s) = cur +:+ s.
Proof.
  induction s as [| c s IH]; intros cur.
  - cbn [JS.split_from JS.join]. now rewrite app_empty_r.
  - cbn [JS.split_from]. rewrite prefix_space.
    destruct (Ascii.eqb c " ") eqn:Hc.
    + apply Ascii.eqb_eq in Hc. subst c.
      rewrite join_cons by apply split_from_nonempty.
      cbn [String.length Nat.sub]. now rewrite IH.
    + rewrite IH. apply app_cons_assoc.
Qed.

Lemma head_split_from (s : string) :
  forall cur, head (JS.split_from " " 0 cur s) = Some (cur +:+ before_space s).
Proof.
  induction s as [| c s IH]; intros cur.
  - simpl. now rewrite app_empty_r.
  - cbn [JS.split_from before_space]. rewrite prefix_space.
    destruct (Ascii.eqb c " ").
    + simpl. now rewrite app_empty_r.
    + rewrite IH. now rewrite app_cons_assoc.
Qed.

Lemma tail_split_from (s : string) :
  forall cur, JS.join " " (tail (JS.split_from " " 0 cur s)) = after_space s.
Proof.
  induction s as [| c s IH]; intros cur.
  - reflexivity.
  - cbn [JS.split_from after_space]. rewrite prefix_space.
    destruct (Ascii.eqb c " ").
    + cbn [tail String.length Nat.sub]. now rewrite join_split_from.
    + apply IH.
Qed.

(** C2, as amended: [breakQuery] cuts the filter string at its first space
    character. When the text before that space is one of the six operators
    the result is that operator with the text after the space (empty when
    the string has no space); otherwise it is ['eq'] with the whole string.
    The three examples of the specification follow. *)
Theorem breakQuery_cuts_at_first_space :
  (forall query : string,
      breakQuery query
      = if is_operator (before_space query)
        then (before_space query, after_space query)
        else ("eq", query))
  /\ breakQuery "eq 5" = ("eq", "5")
  /\ breakQuery "42" = ("eq", "42")
  /\ breakQuery "like %foo%" = ("like", "%foo%").
Proof.
  split; [| repeat split; reflexivity].
  intros query. unfold breakQuery, JS.split.
  pose proof (head_split_from query EmptyString) as Hh.
  pose proof (tail_split_from query EmptyString) as Ht.
  destruct (JS.split_from " " 0 EmptyString query) as [| p ps] eqn:Hs.
  - discriminate.
  - cbn [head tail] in Hh, Ht. rewrite app_empty_l in Hh. injection Hh as ->.
    unfold JS.includes, is_operator. cbn [head JS.shift].
    destruct (existsb (String.eqb (before_space query)) operators).
    + cbn [negb default]. now rewrite Ht.
    + reflexivity.
Qed.

(** C2 as stated fails on the filter string [eq<TAB>5]: its first whitespace-delimited token is
    the operator [eq], yet [breakQuery] answers ['eq'] with the whole
    string and not the operator with the remainder [5]. *)
Lemma breakQuery_tab_not_a_delimiter :
  let query := "eq" +:+ String (ascii_of_nat 9) "5" in
  first_token query = "eq"
  /\ after_token query = "5"
  /\ is_operator (first_token query) = true
  /\ breakQuery query = ("eq", query)
  /\ breakQuery query <> whitespace_breakQuery query.
Proof.
  cbv zeta. repeat split; try reflexivity.
  vm_compute. discriminate.
Qed.

End BreakQueryFacts.

(** ** The schema generator *)
Module GeneratorFacts.
Import Schema Samples.

Section FieldTypes.

Variable stringToValidPropertyName : string -> string.

Local Abbreviation fieldName :=
  (fun k : MetatypeKey => stringToValidPropertyName (property_name k)).






End FieldTypes.


End GeneratorFacts.

(** ** Grouping of the relationship pairs *)
Module PairFacts.
Import Schema Samples.

(** *** Splitting a name of the form [A : rel : B] *)







(** *** What [populate] does to the lookups *)






Section Grouping.

Variable stringToValidPropertyName : string -> string.




End Grouping.


End PairFacts.

(** ** The resolver *)
Module ResolverFacts.
Import Schema Samples.

Section Resolving.

Variable stringToValidPropertyName : string -> string.
Variable toJSString : JSON -> string.
Variable toISOString : Z -> string.
Variable findByRelationship : string -> string -> option string -> EdgeLookup.

Local Abbreviation buildQuery' :=
  (buildQuery stringToValidPropertyName toJSString findByRelationship).
Local Abbreviation resolver' :=
  (resolverForMetatype stringToValidPropertyName toJSString toISOString
     findByRelationship).

Lemma recordPredicates_ok (r : RecordInput) :
  negb (truthy (rec_original_id r))
  || match rec_original_id r with
     | Some (JString _) => true
     | _ => false
     end = true ->
  exists ps, recordPredicates r = Ok ps.
Proof.
  intros H. unfold recordPredicates.
  destruct (truthy (rec_original_id r)) eqn:Ht.
  - cbn in H. destruct (rec_original_id r) as [[| | | s |] |]; try discriminate.
    cbn. eauto.
  - cbn. eauto.
Qed.

Lemma propertyPredicates_ok (pm : gmap string (string * string))
  (args : list (string * JSON)) :
  forallb (fun kv : string * JSON =>
             String.eqb kv.1 "_record" || String.eqb kv.1 "_relationship"
             || bool_decide (is_Some (pm !! kv.1))) args = true ->
  exists ps, propertyPredicates toJSString pm args = Ok ps.
Proof.
  induction args as [| [key v] args IH]; intros H; [cbn; eauto |].
  cbn [forallb] in H. apply andb_true_iff in H as [Hk Hrest].
  destruct (IH Hrest) as [ps Hps]. cbn [propertyPredicates]. cbn [fst] in Hk.
  destruct (String.eqb key "_record" || String.eqb key "_relationship") eqn:Hres.
  - eauto.
  - cbn [orb] in Hk. apply bool_decide_eq_true in Hk as [[name dt] Hpm].
    rewrite Hpm, Hps. cbn. eauto.
Qed.



Lemma filter_none (repo : NodeRepository) (preds : list Predicate) :
  In (Id "eq" (IdNumber 0)) preds ->
  Forall (fun n => node_id n <> 0%Z) (nodes repo) ->
  List.filter (fun n => forallb (fun p => satisfies repo p n) preds) (nodes repo) = [].
Proof.
  intros Hin Hids. induction Hids as [| n ns Hn _ IH]; [reflexivity |].
  cbn [List.filter]. rewrite IH.
  assert (Hno : forallb (fun p => satisfies repo p n) preds = false).
  { apply not_true_is_false. intros Hall.
    rewrite forallb_forall in Hall. specialize (Hall _ Hin).
    cbn in Hall. apply Z.eqb_eq in Hall. contradiction. }
  now rewrite Hno.
Qed.

(** C1: when the [_relationship] filter is given and the edge lookup for
    its first relationship and destination finds no edge, the node query is
    constrained with the predicate [id eq 0]; no node has that id, so the
    query yields no row and the field resolves to the empty list. The
    arguments are those the generated field declares, the [original_id]
    filter is a string, the repository answers, and node ids are the
    non-zero keys of the store. *)
Theorem no_matching_edge_no_rows (repo : NodeRepository) (containerID : string)
  (metatype : Metatype) (input : ResolverInput)
  (relationship : string) (d : DestinationInput) (ds : list DestinationInput)
  (more : RelationshipInput) :
  _relationship input = Some ((relationship, d :: ds) :: more) ->
  findByRelationship (metatype_name metatype)
    (JS.replace_first "_" " " relationship) (head (map fst d))
  = EdgeResult (Some []) ->
  original_id_is_string input = true ->
  arguments_declared stringToValidPropertyName metatype input = true ->
  failure repo = None ->
  Forall (fun n => node_id n <> 0%Z) (nodes repo) ->
  exists q : Query,
    buildQuery' containerID metatype input = Ok q
    /\ In (Id "eq" (IdNumber 0)) (predicates q)
    /\ list_nodes repo q
       = Fulfilled {| isError := false; value := Some []; error := None |}
    /\ resolver' repo containerID metatype input = (Resolved (Rows []), []).
Proof.
  intros Hrel Hedges Horig Hargs Hfail Hids.
  assert (Hrec : exists ps, match _record input with
                            | Some r => recordPredicates r
                            | None => Ok []
                            end = Ok ps).
  { unfold original_id_is_string in Horig.
    destruct (_record input) as [r |]; [now apply recordPredicates_ok | eauto]. }
  destruct Hrec as [ps1 Hps1].
  destruct (propertyPredicates_ok _ _ Hargs) as [ps3 Hps3].
  set (q := {| predicates :=
                 [ContainerID "eq" containerID; MetatypeID "eq" (metatype_id metatype)]
                   ++ ps1 ++ [Id "eq" (IdNumber 0)] ++ ps3;
               loadRelationships := true; limit := Some 10000%Z |}).
  assert (Hq : buildQuery' containerID metatype input = Ok q).
  { unfold buildQuery. rewrite Hps1, Hrel. cbn [obind relationshipPredicate].
    rewrite Hedges. cbn [length Nat.eqb negb obind]. rewrite Hps3. reflexivity. }
  assert (Hin : In (Id "eq" (IdNumber 0)) (predicates q)).
  { cbn. right. right. apply in_or_app. right. now left. }
  assert (Hlist : list_nodes repo q
                  = Fulfilled {| isError := false; value := Some []; error := None |}).
  { unfold list_nodes. rewrite Hfail, (filter_none repo _ Hin Hids).
    cbn. now rewrite firstn_nil. }
  exists q. repeat split; auto.
  unfold resolverForMetatype. rewrite Hq, Hlist. reflexivity.
Qed.

(** C5, as amended: when the node query is run and the repository returns
    an error result, the failure is logged and the field resolves to the
    empty list; when the promise of the repository rejects, the field
    resolves with the value it rejected with and nothing is logged. In
    neither case is the promise of the resolver rejected. *)
Theorem repository_failure_is_absorbed (repo : NodeRepository)
  (containerID : string) (metatype : Metatype) (input : ResolverInput) (q : Query) :
  buildQuery' containerID metatype input = Ok q ->
  (forall v e, failure repo = Some (ReturnsError v e) ->
               resolver' repo containerID metatype input
               = (Resolved (Rows []),
                  ["unable to list nodes " +:+ default "undefined" e]))
  /\ (forall e, failure repo = Some (Rejects e) ->
                resolver' repo containerID metatype input
                = (Resolved (Caught (Raised e)), []))
  /\ (forall f, failure repo = Some f ->
                exists v, (resolver' repo containerID metatype input).1 = Resolved v).
Proof.
  intros Hq. unfold resolverForMetatype. rewrite Hq. unfold list_nodes.
  repeat split.
  - intros v e ->. destruct v; reflexivity.
  - intros e ->. reflexivity.
  - intros [v e | e] ->; [destruct v |]; cbn; eauto.
Qed.

End Resolving.

End ResolverFacts.

(** ** The resolver on the sample graph *)
Module ResolverRuns.
Import Schema Samples ResolverFacts.


Lemma no_matching_edge_no_rows_witness :
  exists q : Query,
    buildQuery underscored show_json no_edges "1" Pump feeding_a_tank = Ok q
    /\ In (Id "eq" (IdNumber 0)) (predicates q)
    /\ list_nodes pumps q
       = Fulfilled {| isError := false; value := Some []; error := None |}
    /\ resolverForMetatype underscored show_json show_date no_edges pumps
         "1" Pump feeding_a_tank = (Resolved (Rows []), []).
Proof.
  apply (no_matching_edge_no_rows underscored show_json show_date no_edges pumps
           "1" Pump feeding_a_tank "feeds" [("Storage_Tank", true)] [] []).
  - reflexivity.
  - reflexivity.
  - reflexivity.
  - vm_compute. reflexivity.
  - reflexivity.
  - repeat constructor; simpl; lia.
Defined.

Lemma repository_failure_is_absorbed_witness :
  resolverForMetatype underscored show_json show_date no_edges pumps_unreachable
    "1" Pump fast_pumps
  = (Resolved (Caught (Raised "connection terminated")), []).
Proof.
  destruct (repository_failure_is_absorbed underscored show_json show_date
              no_edges pumps_unreachable "1" Pump fast_pumps _ eq_refl)
    as (_ & Hrejects & _).
  apply Hrejects. reflexivity.
Defined.

(** C5 as stated fails when the repository rejects: the field resolves
    with the rejection value, not with an empty result set, and nothing is
    logged. *)
Lemma rejection_is_not_an_empty_result :
  let outcome :=
    resolverForMetatype underscored show_json show_date no_edges pumps_unreachable
      "1" Pump fast_pumps in
  outcome.1 = Resolved (Caught (Raised "connection terminated"))
  /\ outcome.1 <> Resolved (Rows [])
  /\ outcome.2 = [].
Proof.
  cbv zeta. split; [reflexivity | split; [| reflexivity]].
  vm_compute. discriminate.
Qed.

End ResolverRuns.

(** ** The type-mapping repository *)
Module TypeMappingFacts.
Import TypeMappings.

Lemma quiet_refl (w : World) : quiet w w.
Proof. split; [reflexivity | exists []; split; [now rewrite app_nil_r | reflexivity]]. Qed.

Lemma quiet_trans (w1 w2 w3 : World) : quiet w1 w2 -> quiet w2 w3 -> quiet w1 w3.
Proof.
  intros [Hc1 (n1 & He1 & Hf1)] [Hc2 (n2 & He2 & Hf2)]. split; [congruence |].
  exists (n1 ++ n2). split.
  - now rewrite He2, He1, <- app_assoc.
  - now rewrite List.filter_app, Hf1, Hf2.
Qed.

Lemma quiet_note (e : Event) (w : World) :
  transactional e = false -> quiet w (note e w).
Proof.
  intros He. split; [reflexivity |]. exists [e]. split; [reflexivity |].
  cbn. now rewrite He.
Qed.

Lemma quiet_with_tx (tx : option Tables) (w : World) : quiet w (with_tx tx w).
Proof. split; [reflexivity | exists []; split; [now rewrite app_nil_r | reflexivity]]. Qed.

Lemma quiet_with_cache (c : gmap string TypeMapping) (w : World) :
  quiet w (with_cache c w).
Proof. split; [reflexivity | exists []; split; [now rewrite app_nil_r | reflexivity]]. Qed.

Lemma quiet_cache_del (k : string) (c : gmap string TypeMapping) (w : World) :
  quiet w (note (CacheDel k) (with_cache c w)).
Proof. split; [reflexivity | exists [CacheDel k]; split; reflexivity]. Qed.

Lemma quiet_deleteCached (t : TypeMapping) (w : World) : quiet w (deleteCached t w).
Proof.
  unfold deleteCached. cbv zeta.
  eapply quiet_trans; apply quiet_cache_del.
Qed.

Lemma quiet_deleteCachedTransformation (tr : TypeTransformation) (w : World) :
  quiet w (deleteCachedTransformation tr w).
Proof.
  unfold deleteCachedTransformation. apply quiet_cache_del.
Qed.

Lemma quiet_deleteCachedTransformations (trs : list TypeTransformation) :
  forall w, quiet w (foldl (fun w tr => deleteCachedTransformation tr w) w trs).
Proof.
  induction trs as [| tr trs IH]; intros w; [apply quiet_refl |].
  cbn [foldl]. eapply quiet_trans; [apply quiet_deleteCachedTransformation | apply IH].
Qed.

Lemma quiet_inTransaction {A} (statement : string) (fails : bool)
  (run : Tables -> A * Tables) (w : World) :
  quiet w (inTransaction statement fails run w).2
  /\ (fails = true -> exists e, (inTransaction statement fails run w).1 = Failure e).
Proof.
  unfold inTransaction. destruct (open_tx w) as [work |].
  - destruct fails.
    + split; [now apply quiet_note | eauto].
    + destruct (run work) as [a work']. split; [| discriminate].
      eapply quiet_trans; [apply quiet_with_tx | now apply quiet_note].
  - split; [apply quiet_refl | eauto].
Qed.

Ltac chain :=
  repeat match goal with
         | H : quiet ?a ?b |- quiet ?a ?c =>
             apply (quiet_trans a b c H); clear H
         end;
  try apply quiet_refl.

Section Saving.

Variable faults : Faults.
Variable mappingErrors : TypeMapping -> option (list string).
Variable transformationErrors : TypeTransformation -> option (list string).
Variable newId : nat -> string.

Local Abbreviation classify' := (classify transformationErrors).
Local Abbreviation saveTransformations' :=
  (saveTransformations faults transformationErrors newId).
Local Abbreviation save' :=
  (save faults mappingErrors transformationErrors newId).

Lemma set_type_mapping_id_twice (i j : option string) (tr : TypeTransformation) :
  set_type_mapping_id i (set_type_mapping_id j tr) = set_type_mapping_id i tr.
Proof. reflexivity. Qed.

Lemma quiet_classify (mappingID : option string) (trs : list TypeTransformation) :
  forall w, quiet w (classify' mappingID trs w).2.
Proof.
  induction trs as [| tr trs IH]; intros w; [apply quiet_refl |].
  cbn [classify].
  destruct (transformationErrors (set_type_mapping_id mappingID tr)).
  - apply quiet_deleteCachedTransformation.
  - specialize (IH (deleteCachedTransformation tr w)).
    destruct (classify' mappingID trs (deleteCachedTransformation tr w))
      as [[[[upd cre] | e] rest'] w2]; cbn [snd] in *;
      (eapply quiet_trans; [apply quiet_deleteCachedTransformation | exact IH]).
Qed.

(** The loop stops with a failure at a transformation that fails
    validation. *)
Lemma classify_invalid (mappingID : option string) (trs : list TypeTransformation) :
  (exists tr, In tr trs /\ fails_validation transformationErrors tr) ->
  forall w, exists e, (classify' mappingID trs w).1.1 = Failure e.
Proof.
  induction trs as [| a trs IH]; intros (tr & Hin & Hbad) w; [destruct Hin |].
  cbn [classify].
  destruct (transformationErrors (set_type_mapping_id mappingID a)) eqn:Ha.
  - cbn. eauto.
  - destruct Hin as [-> | Hin]; [exfalso; exact (Hbad _ Ha) |].
    destruct (IH (ex_intro _ tr (conj Hin Hbad)) (deleteCachedTransformation a w))
      as [e He].
    destruct (classify' mappingID trs (deleteCachedTransformation a w))
      as [[[[upd cre] | e'] rest'] w2]; cbn in He; [discriminate |].
    cbn. eauto.
Qed.

(** When the loop succeeds, a transformation with an id is among those to
    update and one without is among those to create. *)
Lemma classify_lists (mappingID : option string) (trs : list TypeTransformation) :
  forall w upd cre trs' w',
    classify' mappingID trs w = (Success (upd, cre), trs', w') ->
    (forall tr, In tr trs -> JS.truthy_string (tr_id tr) = true -> upd <> [])
    /\ (forall tr, In tr trs -> JS.truthy_string (tr_id tr) = false -> cre <> []).
Proof.
  induction trs as [| a trs IH]; intros w upd cre trs' w' Hc.
  - split; intros tr [].
  - cbn [classify] in Hc.
    destruct (transformationErrors (set_type_mapping_id mappingID a)); [discriminate |].
    destruct (classify' mappingID trs (deleteCachedTransformation a w))
      as [[[[upd0 cre0] | e'] rest'] w2] eqn:Hrest; [| discriminate].
    destruct (IH _ _ _ _ _ Hrest) as [Hu Hcr].
    change (tr_id (set_type_mapping_id mappingID a)) with (tr_id a) in Hc.
    destruct (JS.truthy_string (tr_id a)) eqn:Hid; injection Hc as <- <- <- <-.
    + split; intros tr [<- | Hin] Ht; try discriminate; try congruence.
      * eapply Hcr; eauto.
    + split; intros tr [<- | Hin] Ht; try discriminate; try congruence.
      * eapply Hu; eauto.
Qed.

Lemma quiet_BulkDelete (removed : list TypeTransformation) (w : World) :
  quiet w (BulkDelete faults removed Client w).2
  /\ (bulk_delete_fails faults = true ->
      exists e, (BulkDelete faults removed Client w).1 = Failure e).
Proof. apply quiet_inTransaction. Qed.

Lemma quiet_BulkUpdate (userID : string) (trs : list TypeTransformation) (w : World) :
  quiet w (BulkUpdate faults userID trs Client w).2
  /\ (bulk_update_fails faults = true ->
      exists e, (BulkUpdate faults userID trs Client w).1 = Failure e).
Proof. apply quiet_inTransaction. Qed.

Lemma quiet_BulkCreate (userID : string) (trs : list TypeTransformation) (w : World) :
  quiet w (BulkCreate faults newId userID trs Client w).2
  /\ (bulk_create_fails faults = true ->
      exists e, (BulkCreate faults newId userID trs Client w).1 = Failure e).
Proof. apply quiet_inTransaction. Qed.

(** The two bulk writes that follow the loop. *)
Lemma quiet_updateStep (userID : string) (upd : list TypeTransformation) (w : World) :
  quiet w (updateStep faults userID upd Client w).2
  /\ (bulk_update_fails faults = true -> upd <> [] ->
      exists e, (updateStep faults userID upd Client w).1 = Failure e).
Proof.
  unfold updateStep. destruct upd as [| u upd].
  - split; [apply quiet_refl | intros _ H; exfalso; now apply H].
  - destruct (quiet_BulkUpdate userID (u :: upd) w) as [Hq Hf]. split; auto.
Qed.

Lemma quiet_createStep (userID : string) (cre : list TypeTransformation) (w : World) :
  quiet w (createStep faults newId userID cre Client w).2
  /\ (bulk_create_fails faults = true -> cre <> [] ->
      exists e, (createStep faults newId userID cre Client w).1 = Failure e).
Proof.
  unfold createStep. destruct cre as [| c cre].
  - split; [apply quiet_refl | intros _ H; exfalso; now apply H].
  - destruct (quiet_BulkCreate userID (c :: cre) w) as [Hq Hf]. split; auto.
Qed.

Lemma quiet_removeStep (t : TypeMapping) (w : World) :
  quiet w (removeStep faults t Client w).2
  /\ (bulk_delete_fails faults = true ->
      default [] (removedTransformations t) <> [] ->
      exists e, (removeStep faults t Client w).1 = Failure e).
Proof.
  unfold removeStep. destruct (removedTransformations t) as [[| r rs] |]; cbn [default].
  - split; [apply quiet_refl | intros _ H; exfalso; now apply H].
  - match goal with
    | |- context [BulkDelete _ ?l _ ?w'] =>
        destruct (quiet_BulkDelete l w') as [Hq Hf]
    end.
    split; [| auto].
    eapply quiet_trans; [apply quiet_deleteCachedTransformations | exact Hq].
  - split; [apply quiet_refl | intros _ H; exfalso; now apply H].
Qed.

(** Inside a transaction of the caller, [saveTransformations] neither
    commits nor rolls back, and it fails when a transformation fails. *)
Lemma saveTransformations_external (userID : string) (t : TypeMapping) (w : World) :
  quiet w (saveTransformations' userID t (Some Client) w).2
  /\ (transformation_failure faults transformationErrors t ->
      exists e, (saveTransformations' userID t (Some Client) w).1.1 = Failure e).
Proof.
  unfold saveTransformations, ensureTransaction, saveTransformationsWithin,
    rollbackIfInternal, commitIfInternal.
  destruct (quiet_removeStep t w) as [Hq1 Hf1].
  destruct (removeStep faults t Client w) as [[ok | e1] w2]; cbn [fst snd] in Hq1, Hf1.
  2:{ cbn. split; [exact Hq1 | eauto]. }
  unfold transformation_failure.
  destruct (transformations t) as [[| tr0 trs] |] eqn:Htrs; cbn [default].
  - cbn. split; [exact Hq1 |].
    intros [(tr & [] & _) | [[Hd Hr] | [(_ & tr & [] & _) | (_ & tr & [] & _)]]].
    destruct (Hf1 Hd Hr) as [e He]. inversion He.
  - pose proof (quiet_classify (id t) (tr0 :: trs) w2) as Hq2.
    pose proof (fun H => classify_invalid (id t) (tr0 :: trs) H w2) as Hinv.
    pose proof (classify_lists (id t) (tr0 :: trs) w2) as Hlists.
    destruct (classify' (id t) (tr0 :: trs) w2) as [[[[upd cre] | e2] trs'] w3];
      cbn [fst snd] in Hq2, Hinv.
    2:{ cbn. split; [chain | eauto]. }
    destruct (Hlists _ _ _ _ eq_refl) as [Hupd Hcre]. clear Hlists.
    destruct (quiet_updateStep userID upd w3) as [Hq3 Hf3].
    destruct (updateStep faults userID upd Client w3) as [[updated | e3] w4];
      cbn [fst snd] in Hq3, Hf3.
    2:{ cbn. split; [chain | eauto]. }
    destruct (quiet_createStep userID cre w4) as [Hq4 Hf4].
    destruct (createStep faults newId userID cre Client w4) as [[created | e4] w5];
      cbn [fst snd] in Hq4, Hf4.
    2:{ cbn. split; [chain | eauto]. }
    cbn. split; [chain |].
    intros [Hbad | [[Hd Hr] | [(Hu & tr & Hin & Hid) | (Hc & tr & Hin & Hid)]]];
      exfalso.
    + destruct (Hinv Hbad) as [e He]. inversion He.
    + destruct (Hf1 Hd Hr) as [e He]. inversion He.
    + destruct (Hf3 Hu (Hupd _ Hin Hid)) as [e He]. inversion He.
    + destruct (Hf4 Hc (Hcre _ Hin Hid)) as [e He]. inversion He.
  - cbn. split; [exact Hq1 |].
    intros [(tr & [] & _) | [[Hd Hr] | [(_ & tr & [] & _) | (_ & tr & [] & _)]]].
    destruct (Hf1 Hd Hr) as [e He]. inversion He.
Qed.

Lemma between_quiet (w w' : World) :
  quiet w w' -> transactions_between w w' [] /\ committed w' = committed w.
Proof. intros [Hc Hn]. split; assumption. Qed.

Lemma between_trans (w1 w2 w3 : World) (l1 l2 : list Event) :
  transactions_between w1 w2 l1 -> transactions_between w2 w3 l2 ->
  transactions_between w1 w3 (l1 ++ l2).
Proof.
  intros (n1 & He1 & Hf1) (n2 & He2 & Hf2). exists (n1 ++ n2). split.
  - now rewrite He2, He1, <- app_assoc.
  - now rewrite List.filter_app, Hf1, Hf2.
Qed.

Lemma startTransaction_spec (w : World) :
  match startTransaction faults w with
  | (Success _, w1) =>
      transactions_between w w1 [TxBegin] /\ committed w1 = committed w
  | (Failure _, w1) => w1 = w
  end.
Proof.
  unfold startTransaction. destruct (start_fails faults); [reflexivity |].
  split; [| reflexivity]. exists [TxBegin]. split; reflexivity.
Qed.

Lemma rollbackTransaction_spec (w : World) :
  transactions_between w (rollbackTransaction Client w) [TxRollback]
  /\ committed (rollbackTransaction Client w) = committed w
  /\ open_tx (rollbackTransaction Client w) = None.
Proof. repeat split. exists [TxRollback]. split; reflexivity. Qed.

Lemma completeTransaction_spec (w : World) :
  match completeTransaction faults Client w with
  | (Success _, w1) => transactions_between w w1 [TxCommit] /\ open_tx w1 = None
  | (Failure _, w1) =>
      transactions_between w w1 [TxCommitFailed] /\ committed w1 = committed w
  end.
Proof.
  unfold completeTransaction. destruct (open_tx w) as [work |].
  - destruct (commit_fails faults).
    + split; [exists [TxCommitFailed]; split; reflexivity | reflexivity].
    + split; [exists [TxCommit]; split; reflexivity | reflexivity].
  - split; [exists [TxCommitFailed]; split; reflexivity | reflexivity].
Qed.

Lemma failure_survives_assign (t row : TypeMapping) :
  transformation_failure faults transformationErrors t ->
  transformation_failure faults transformationErrors (assignMappingID (assign t row)).
Proof.
  unfold transformation_failure, assignMappingID. cbn [transformations
    removedTransformations set_transformations assign id].
  assert (Hmap : forall tr, In tr (default [] (transformations t)) ->
                 In (set_type_mapping_id (id row) tr)
                   (default [] (map (set_type_mapping_id (id row)) <$> transformations t))).
  { intros tr Hin. destruct (transformations t) as [trs |]; [| destruct Hin].
    cbn. now apply in_map. }
  intros [(tr & Hin & Hbad) | [Hdel | [(Hu & tr & Hin & Hid) | (Hc & tr & Hin & Hid)]]].
  - left. exists (set_type_mapping_id (id row) tr). split; [now apply Hmap |].
    intros i. rewrite set_type_mapping_id_twice. apply Hbad.
  - right. left. exact Hdel.
  - right. right. left. split; [exact Hu |].
    exists (set_type_mapping_id (id row) tr). split; [now apply Hmap | exact Hid].
  - right. right. right. split; [exact Hc |].
    exists (set_type_mapping_id (id row) tr). split; [now apply Hmap | exact Hid].
Qed.

Lemma begun_quiet (w a b : World) : begun w a -> quiet a b -> begun w b.
Proof.
  intros [Hb Hc] Hq. apply between_quiet in Hq as [Hb' Hc']. split; [| congruence].
  apply (between_trans w a b [TxBegin] [] Hb Hb').
Qed.

Lemma rolled_back (w a : World) :
  begun w a ->
  committed (rollbackTransaction Client a) = committed w
  /\ open_tx (rollbackTransaction Client a) = None
  /\ transactions_between w (rollbackTransaction Client a) [TxBegin; TxRollback].
Proof.
  intros [Hb Hc]. destruct (rollbackTransaction_spec a) as (Hb' & Hc' & Ho').
  split; [congruence | split; [exact Ho' |]].
  apply (between_trans w a _ [TxBegin] [TxRollback] Hb Hb').
Qed.

Lemma commit_attempt (w a : World) :
  begun w a ->
  match completeTransaction faults Client a with
  | (Success _, b) => transactions_between w b [TxBegin; TxCommit] /\ open_tx b = None
  | (Failure _, b) =>
      committed b = committed w /\ transactions_between w b [TxBegin; TxCommitFailed]
  end.
Proof.
  intros [Hb Hc]. pose proof (completeTransaction_spec a) as Hs.
  destruct (completeTransaction faults Client a) as [[ok | e] b].
  - destruct Hs as [Hb' Ho]. split; [| exact Ho].
    apply (between_trans w a b [TxBegin] [TxCommit] Hb Hb').
  - destruct Hs as [Hb' Hc']. split; [congruence |].
    apply (between_trans w a b [TxBegin] [TxCommitFailed] Hb Hb').
Qed.

(** [saveTransformations] called without a transaction: it opens its own,
    rolls it back when the deletion, a validation or a bulk write fails,
    and commits once, at the end, otherwise. *)
Lemma saveTransformations_own_transaction (userID : string) (t : TypeMapping)
  (w : World) (res : Result bool) (t' : TypeMapping) (w' : World) :
  saveTransformations' userID t None w = (res, t', w') ->
  match res with
  | Success _ => transactions_between w w' [TxBegin; TxCommit] /\ open_tx w' = None
  | Failure _ =>
      committed w' = committed w
      /\ (w' = w
          \/ open_tx w' = None /\ transactions_between w w' [TxBegin; TxRollback]
          \/ transactions_between w w' [TxBegin; TxCommitFailed])
  end
  /\ (transformation_failure faults transformationErrors t ->
      exists e, res = Failure e
                /\ committed w' = committed w
                /\ (w' = w
                    \/ open_tx w' = None
                       /\ transactions_between w w' [TxBegin; TxRollback])).
Proof.
  unfold saveTransformations, ensureTransaction. intros Hrun.
  pose proof (startTransaction_spec w) as Hstart.
  destruct (startTransaction faults w) as [[[] | e0] w1].
  2:{ subst w1. injection Hrun as <- <- <-. split; [auto | eauto 6]. }
  assert (Hb1 : begun w w1) by exact Hstart. clear Hstart.
  unfold saveTransformationsWithin, rollbackIfInternal, commitIfInternal in Hrun.
  assert (Hleaf : forall a e,
             begun w a ->
             (committed (rollbackTransaction Client a) = committed w
              /\ (rollbackTransaction Client a = w
                  \/ open_tx (rollbackTransaction Client a) = None
                     /\ transactions_between w (rollbackTransaction Client a)
                          [TxBegin; TxRollback]
                  \/ transactions_between w (rollbackTransaction Client a)
                       [TxBegin; TxCommitFailed]))
             /\ (transformation_failure faults transformationErrors t ->
                 exists e', @Failure bool e = Failure e'
                   /\ committed (rollbackTransaction Client a) = committed w
                   /\ (rollbackTransaction Client a = w
                       \/ open_tx (rollbackTransaction Client a) = None
                          /\ transactions_between w (rollbackTransaction Client a)
                               [TxBegin; TxRollback]))).
  { intros a e Ha. destruct (rolled_back w a Ha) as (Hc & Ho & Hb).
    split; [split; [exact Hc | right; left; split; assumption] |].
    intros _. exists e. split; [reflexivity | split; [exact Hc |]].
    right. split; assumption. }
  destruct (quiet_removeStep t w1) as [Hq1 Hf1].
  destruct (removeStep faults t Client w1) as [[ok | e1] w2]; cbn [fst snd] in Hq1, Hf1.
  2:{ injection Hrun as <- <- <-. apply (Hleaf w2). eapply begun_quiet; eauto. }
  assert (Hb2 : begun w w2) by (eapply begun_quiet; eauto).
  assert (Hnone : default [] (transformations t) = [] ->
                  transformation_failure faults transformationErrors t ->
                  exists e, @Success bool ok = Failure e).
  { intros Hempty Hf. unfold transformation_failure in Hf. rewrite Hempty in Hf.
    destruct Hf as [(tr & [] & _) | [[Hd Hr] | [(_ & tr & [] & _) | (_ & tr & [] & _)]]].
    exact (Hf1 Hd Hr). }
  destruct (transformations t) as [[| tr0 trs] |] eqn:Htrs; cbn [default] in Hnone.
  - pose proof (commit_attempt w w2 Hb2) as Hcommit.
    destruct (completeTransaction faults Client w2) as [[ok' | e'] w3];
      injection Hrun as <- <- <-.
    + split; [exact Hcommit |].
      intros Hf. destruct (Hnone eq_refl Hf) as [e He]. inversion He.
    + destruct Hcommit as [Hc Hb]. split; [split; [exact Hc | auto] |].
      intros Hf. destruct (Hnone eq_refl Hf) as [e He]. inversion He.
  - pose proof (quiet_classify (id t) (tr0 :: trs) w2) as Hq2.
    pose proof (fun H => classify_invalid (id t) (tr0 :: trs) H w2) as Hinv.
    pose proof (classify_lists (id t) (tr0 :: trs) w2) as Hlists.
    destruct (classify' (id t) (tr0 :: trs) w2) as [[[[upd cre] | e2] trs'] w3];
      cbn [fst snd] in Hq2, Hinv.
    2:{ injection Hrun as <- <- <-.
        apply (Hleaf w3). eapply begun_quiet; eauto. }
    assert (Hb3 : begun w w3) by (eapply begun_quiet; eauto).
    destruct (Hlists _ _ _ _ eq_refl) as [Hupd Hcre]. clear Hlists.
    destruct (quiet_updateStep userID upd w3) as [Hq3 Hf3].
    destruct (updateStep faults userID upd Client w3) as [[updated | e3] w4];
      cbn [fst snd] in Hq3, Hf3.
    2:{ injection Hrun as <- <- <-.
        apply (Hleaf w4). eapply begun_quiet; eauto. }
    assert (Hb4 : begun w w4) by (eapply begun_quiet; eauto).
    destruct (quiet_createStep userID cre w4) as [Hq4 Hf4].
    destruct (createStep faults newId userID cre Client w4) as [[created | e4] w5];
      cbn [fst snd] in Hq4, Hf4.
    2:{ injection Hrun as <- <- <-.
        apply (Hleaf w5). eapply begun_quiet; eauto. }
    assert (Hb5 : begun w w5) by (eapply begun_quiet; eauto).
    assert (Hno : transformation_failure faults transformationErrors t -> False).
    { intros Hf. unfold transformation_failure in Hf. rewrite Htrs in Hf.
      cbn [default] in Hf.
      destruct Hf as [Hbad | [[Hd Hr] | [(Hu & tr & Hin & Hid) | (Hc & tr & Hin & Hid)]]].
      - destruct (Hinv Hbad) as [e He]. inversion He.
      - destruct (Hf1 Hd Hr) as [e He]. inversion He.
      - destruct (Hf3 Hu (Hupd _ Hin Hid)) as [e He]. inversion He.
      - destruct (Hf4 Hc (Hcre _ Hin Hid)) as [e He]. inversion He. }
    pose proof (commit_attempt w w5 Hb5) as Hcommit.
    destruct (completeTransaction faults Client w5) as [[ok' | e'] w6];
      injection Hrun as <- <- <-.
    + split; [exact Hcommit | intros Hf; destruct (Hno Hf)].
    + destruct Hcommit as [Hc Hb]. split; [split; [exact Hc | auto] |].
      intros Hf; destruct (Hno Hf).
  - pose proof (commit_attempt w w2 Hb2) as Hcommit.
    destruct (completeTransaction faults Client w2) as [[ok' | e'] w3];
      injection Hrun as <- <- <-.
    + split; [exact Hcommit |].
      intros Hf. destruct (Hnone eq_refl Hf) as [e He]. inversion He.
    + destruct Hcommit as [Hc Hb]. split; [split; [exact Hc | auto] |].
      intros Hf. destruct (Hnone eq_refl Hf) as [e He]. inversion He.
Qed.

(** What is left to do once the mapping row is written: the
    transformations, then the commit. Both branches of [save] end this
    way when the transaction is its own. *)
Lemma save_tail (userID : string) (t t1 : TypeMapping) (w w3 : World)
  (res : Result bool) (t' : TypeMapping) (w' : World) :
  transactions_between w w3 [TxBegin] ->
  committed w3 = committed w ->
  (transformation_failure faults transformationErrors t ->
   transformation_failure faults transformationErrors t1) ->
  match saveTransformations' userID t1 (Some Client) w3 with
  | (Failure e, t2, w4) =>
      (Failure ("unable to save mapping transformations " +:+ e), t2,
       rollbackTransaction Client w4)
  | (Success _, t2, w4) =>
      match completeTransaction faults Client w4 with
      | (Failure e, w5) =>
          (Failure ("unable to commit changes to database " +:+ e), t2,
           rollbackTransaction Client w5)
      | (Success _, w5) => (Success true, t2, w5)
      end
  end = (res, t', w') ->
  match res with
  | Success _ => transactions_between w w' [TxBegin; TxCommit] /\ open_tx w' = None
  | Failure _ =>
      committed w' = committed w
      /\ (w' = w
          \/ open_tx w' = None
             /\ (transactions_between w w' [TxBegin; TxRollback]
                 \/ transactions_between w w' [TxBegin; TxCommitFailed; TxRollback]))
  end
  /\ (transformation_failure faults transformationErrors t ->
      exists e, res = Failure e
                /\ committed w' = committed w
                /\ (w' = w
                    \/ open_tx w' = None
                       /\ transactions_between w w' [TxBegin; TxRollback])).
Proof.
  intros Hbegin Hc3 Hfail Hrun.
  destruct (saveTransformations_external userID t1 w3) as [Hq Hfails].
  destruct (saveTransformations' userID t1 (Some Client) w3) as [[[ok | e] t2] w4];
    cbn [fst snd] in Hq, Hfails.
  - apply between_quiet in Hq as [Hb4 Hc4].
    pose proof (completeTransaction_spec w4) as Hcommit.
    destruct (completeTransaction faults Client w4) as [[ok' | e'] w5];
      injection Hrun as <- <- <-.
    + destruct Hcommit as [Hb5 Ho5]. split.
      * split; [| exact Ho5].
        apply (between_trans w w3 w5 [TxBegin] [TxCommit] Hbegin).
        apply (between_trans w3 w4 w5 [] [TxCommit] Hb4 Hb5).
      * intros Hf. destruct (Hfails (Hfail Hf)) as [e He]. inversion He.
    + destruct Hcommit as [Hb5 Hc5].
      destruct (rollbackTransaction_spec w5) as (Hb6 & Hc6 & Ho6). split.
      * split; [congruence |]. right. split; [exact Ho6 |]. right.
        apply (between_trans w w3 _ [TxBegin] [TxCommitFailed; TxRollback] Hbegin).
        apply (between_trans w3 w4 _ [] [TxCommitFailed; TxRollback] Hb4).
        apply (between_trans w4 w5 _ [TxCommitFailed] [TxRollback] Hb5 Hb6).
      * intros Hf. destruct (Hfails (Hfail Hf)) as [e He]. inversion He.
  - injection Hrun as <- <- <-.
    apply between_quiet in Hq as [Hb4 Hc4].
    destruct (rollbackTransaction_spec w4) as (Hb5 & Hc5 & Ho5).
    assert (Hb : transactions_between w (rollbackTransaction Client w4)
                   [TxBegin; TxRollback]).
    { apply (between_trans w w3 _ [TxBegin] [TxRollback] Hbegin).
      apply (between_trans w3 w4 _ [] [TxRollback] Hb4 Hb5). }
    assert (Hc : committed (rollbackTransaction Client w4) = committed w) by congruence.
    split.
    + split; [exact Hc |]. right. split; [exact Ho5 |]. left. exact Hb.
    + intros _. eexists. split; [reflexivity |]. split; [exact Hc |].
      right. split; [exact Ho5 | exact Hb].
Qed.

(** [save] called without a transaction. *)
Lemma save_own_transaction (t : TypeMapping) (userID : string) (w : World)
  (res : Result bool) (t' : TypeMapping) (w' : World) :
  save' t userID true None w = (res, t', w') ->
  match res with
  | Success _ => transactions_between w w' [TxBegin; TxCommit] /\ open_tx w' = None
  | Failure _ =>
      committed w' = committed w
      /\ (w' = w
          \/ open_tx w' = None
             /\ (transactions_between w w' [TxBegin; TxRollback]
                 \/ transactions_between w w' [TxBegin; TxCommitFailed; TxRollback]))
  end
  /\ (transformation_failure faults transformationErrors t ->
      exists e, res = Failure e
                /\ committed w' = committed w
                /\ (w' = w
                    \/ open_tx w' = None
                       /\ transactions_between w w' [TxBegin; TxRollback])).
Proof.
  unfold save. intros Hrun.
  destruct (mappingErrors t) as [errors |].
  { injection Hrun as <- <- <-. split; [auto | eauto 6]. }
  unfold ensureTransaction in Hrun.
  pose proof (startTransaction_spec w) as Hstart.
  destruct (startTransaction faults w) as [[[] | e0] w1].
  2:{ subst w1. injection Hrun as <- <- <-. split; [auto | eauto 6]. }
  destruct Hstart as [Hb1 Hc1].
  destruct (JS.truthy_string (id t)).
  - pose proof (quiet_deleteCached t w1) as Hq2.
    set (w2 := deleteCached t w1) in *.
    unfold Update in Hrun.
    destruct (quiet_inTransaction "update mapping" (mapping_write_fails faults)
                (fun work =>
                   (stamp userID t,
                    {| mapping_rows :=
                         map (fun r => if same_id (id r) (id t) then stamp userID t else r)
                           (mapping_rows work);
                       transformation_rows := transformation_rows work;
                       next_id := next_id work |})) w2) as [Hq3 _].
    destruct (inTransaction _ _ _ w2) as [[row | e3] w3]; cbn [fst snd] in Hq3.
    + apply between_quiet in Hq2 as [Hb2 Hc2].
      apply between_quiet in Hq3 as [Hb3 Hc3].
      apply (save_tail userID t (assignMappingID (assign t row)) w w3 res t' w').
      * apply (between_trans w w1 w3 [TxBegin] [] Hb1).
        apply (between_trans w1 w2 w3 [] [] Hb2 Hb3).
      * congruence.
      * apply failure_survives_assign.
      * exact Hrun.
    + injection Hrun as <- <- <-.
      apply between_quiet in Hq2 as [Hb2 Hc2].
      apply between_quiet in Hq3 as [Hb3 Hc3].
      destruct (rollbackTransaction_spec w3) as (Hb4 & Hc4 & Ho4).
      assert (Hb : transactions_between w (rollbackTransaction Client w3)
                     [TxBegin; TxRollback]).
      { apply (between_trans w w1 _ [TxBegin] [TxRollback] Hb1).
        apply (between_trans w1 w2 _ [] [TxRollback] Hb2).
        apply (between_trans w2 w3 _ [] [TxRollback] Hb3 Hb4). }
      assert (Hc : committed (rollbackTransaction Client w3) = committed w) by congruence.
      split; [split; [exact Hc | right; split; [exact Ho4 | left; exact Hb]] |].
      intros _. eexists. split; [reflexivity |]. split; [exact Hc |].
      right. split; [exact Ho4 | exact Hb].
  - unfold CreateOrUpdate in Hrun.
    match type of Hrun with
    | context [inTransaction ?s ?f ?run w1] =>
        destruct (quiet_inTransaction s f run w1) as [Hq3 _];
        destruct (inTransaction s f run w1) as [[row | e3] w3]
    end; cbn [fst snd] in Hq3.
    + apply between_quiet in Hq3 as [Hb3 Hc3].
      apply (save_tail userID t (assignMappingID (assign t row)) w w3 res t' w').
      * apply (between_trans w w1 w3 [TxBegin] [] Hb1 Hb3).
      * congruence.
      * apply failure_survives_assign.
      * exact Hrun.
    + injection Hrun as <- <- <-.
      apply between_quiet in Hq3 as [Hb3 Hc3].
      destruct (rollbackTransaction_spec w3) as (Hb4 & Hc4 & Ho4).
      assert (Hb : transactions_between w (rollbackTransaction Client w3)
                     [TxBegin; TxRollback]).
      { apply (between_trans w w1 _ [TxBegin] [TxRollback] Hb1).
        apply (between_trans w1 w3 _ [] [TxRollback] Hb3 Hb4). }
      assert (Hc : committed (rollbackTransaction Client w3) = committed w) by congruence.
      split; [split; [exact Hc | right; split; [exact Ho4 | left; exact Hb]] |].
      intros _. eexists. split; [reflexivity |]. split; [exact Hc |].
      right. split; [exact Ho4 | exact Hb].
Qed.

(** C6: a save that opens its own transaction, through [save] or through
    [saveTransformations]. When a transformation fails validation, or a
    bulk write of transformations fails, the save fails, the committed
    tables are as before, and the transaction, if one was begun, is rolled
    back and closed without any commit. Whenever the save fails nothing it
    wrote is committed. The transaction is committed only when the save
    succeeds, once, as the last event of the transaction. *)
Theorem save_is_atomic (t : TypeMapping) (userID : string) (w : World) :
  let whole := save' t userID true None w in
  let part := saveTransformations' userID t None w in
  (transformation_failure faults transformationErrors t ->
   (exists e, whole.1.1 = Failure e)
   /\ committed whole.2 = committed w
   /\ (whole.2 = w
       \/ open_tx whole.2 = None
          /\ transactions_between w whole.2 [TxBegin; TxRollback]))
  /\ (transformation_failure faults transformationErrors t ->
      (exists e, part.1.1 = Failure e)
      /\ committed part.2 = committed w
      /\ (part.2 = w
          \/ open_tx part.2 = None
             /\ transactions_between w part.2 [TxBegin; TxRollback]))
  /\ match whole.1.1 with
     | Success _ =>
         transactions_between w whole.2 [TxBegin; TxCommit] /\ open_tx whole.2 = None
     | Failure _ =>
         committed whole.2 = committed w
         /\ (whole.2 = w
             \/ open_tx whole.2 = None
                /\ (transactions_between w whole.2 [TxBegin; TxRollback]
                    \/ transactions_between w whole.2
                         [TxBegin; TxCommitFailed; TxRollback]))
     end
  /\ match part.1.1 with
     | Success _ =>
         transactions_between w part.2 [TxBegin; TxCommit] /\ open_tx part.2 = None
     | Failure _ =>
         committed part.2 = committed w
         /\ (part.2 = w
             \/ open_tx part.2 = None
                /\ transactions_between w part.2 [TxBegin; TxRollback]
             \/ transactions_between w part.2 [TxBegin; TxCommitFailed])
     end.
Proof.
  cbv zeta.
  destruct (save' t userID true None w) as [[res t'] w'] eqn:Hwhole.
  destruct (saveTransformations' userID t None w) as [[res2 t2] w2] eqn:Hpart.
  destruct (save_own_transaction _ _ _ _ _ _ Hwhole) as [Hw Hwf].
  destruct (saveTransformations_own_transaction _ _ _ _ _ _ Hpart) as [Hp Hpf].
  cbn [fst snd]. split; [| split; [| split; assumption]].
  - intros Hf. destruct (Hwf Hf) as (e & -> & Hc & Hr). eauto.
  - intros Hf. destruct (Hpf Hf) as (e & -> & Hc & Hr). eauto.
Qed.

End Saving.

Section Finding.

Variable faults : Faults.



(** On a cache miss, when the mapping is retrieved and the listing of its
    transformations fails, the mapping goes to the cache as it was
    retrieved, with no transformation added. *)
Lemma findByID_caches_unlisted (i : string) (w : World) (row : TypeMapping) :
  list_transformations_fails faults = true ->
  retrieve_fails faults = false ->
  cache w !! idKey (Some i) = None ->
  find (fun r => same_id (id r) (Some i)) (mapping_rows (committed w)) = Some row ->
  (findByID faults i true w).1 = Success row
  /\ cache (findByID faults i true w).2
       !! shapeKey (data_source_id row) (shape_hash row) = Some row.
Proof.
  intros Hl Hr Hc Hfind. unfold findByID, getCached. rewrite Hc.
  unfold Retrieve. rewrite Hr. cbn [committed note]. rewrite Hfind.
  unfold ListForTypeMapping. rewrite Hl. split; [reflexivity |].
  unfold setCache. cbn [snd cache note with_cache]. apply lookup_insert_eq.
Qed.

(** Without [loadTransformations] nothing is written to the cache. *)
Lemma findByID_unloaded_not_cached (i : string) (w : World) :
  cache (findByID faults i false w).2 = cache w.
Proof.
  unfold findByID, getCached. destruct (cache w !! idKey (Some i)); [reflexivity |].
  unfold Retrieve. destruct (retrieve_fails faults); [reflexivity |].
  destruct (find _ _); reflexivity.
Qed.

End Finding.

Section Importing.

Variable populateKeys : TypeTransformation -> TypeTransformation.
Variable backfillIDs :
  option string -> list TypeTransformation -> list TypeTransformation.

(** C8, as amended: [prepareForImport] with a separate destination
    container clears the id, the container id, the data source id and the
    audit fields of the mapping, and of every transformation the id, the
    mapping id, the container and data source ids, the shape hash, the
    metatype and relationship pair ids, the key ids and the audit fields;
    the shape hash of the mapping itself is kept. The mapping handed to
    [save] by [importToDataSource] has no id and carries the container and
    the data source of the target. *)
Theorem prepareForImport_clears_identity (typeMapping : TypeMapping) :
  let prepared := prepareForImport populateKeys typeMapping true in
  id prepared = None
  /\ container_id prepared = None
  /\ data_source_id prepared = None
  /\ created_at prepared = None /\ created_by prepared = None
  /\ modified_at prepared = None /\ modified_by prepared = None
  /\ shape_hash prepared = shape_hash typeMapping
  /\ length (default [] (transformations prepared))
     = length (default [] (transformations typeMapping))
  /\ Forall (fun tr =>
               tr_id tr = None /\ tr_type_mapping_id tr = None
               /\ tr_container_id tr = None /\ tr_data_source_id tr = None
               /\ tr_shape_hash tr = None
               /\ tr_metatype_id tr = None
               /\ tr_metatype_relationship_pair_id tr = None
               /\ tr_created_at tr = None /\ tr_created_by tr = None
               /\ tr_modified_at tr = None /\ tr_modified_by tr = None
               /\ Forall (fun k => metatype_key_id k = None
                                   /\ metatype_relationship_key_id k = None)
                    (default [] (tr_keys tr)))
       (default [] (transformations prepared))
  /\ (forall target : DataSource,
         differ (container_id typeMapping) (source_container_id target) = true ->
         let imported := mappingForImport populateKeys backfillIDs target typeMapping in
         id imported = None
         /\ container_id imported = source_container_id target
         /\ data_source_id imported = source_id target
         /\ active imported = false).
Proof.
  cbv zeta. repeat split.
  - cbn. destruct (transformations typeMapping) as [trs |]; [| reflexivity].
    cbn. now rewrite length_map.
  - cbn. destruct (transformations typeMapping) as [trs |]; [| constructor].
    cbn. apply Forall_map. apply Forall_forall. intros tr _. cbn.
    repeat split.
    destruct (tr_keys (populateKeys tr)) as [ks |]; [| constructor].
    cbn. apply Forall_map. apply Forall_forall. intros k _. split; reflexivity.
Qed.

End Importing.

End TypeMappingFacts.

(** ** The type-mapping repository on the sample store *)
Module TypeMappingRuns.
Import TypeMappings MappingSamples TypeMappingFacts.

Lemma save_is_atomic_witness :
  let unsaved := pump_mapping None (Some [to_pump None None]) in
  let whole := save create_fails valid_mapping valid_transformation numbered
                 unsaved "admin" true None empty_world in
  (exists e, whole.1.1 = Failure e)
  /\ committed whole.2 = committed empty_world
  /\ (whole.2 = empty_world
      \/ open_tx whole.2 = None
         /\ transactions_between empty_world whole.2 [TxBegin; TxRollback]).
Proof.
  cbv zeta.
  destruct (save_is_atomic create_fails valid_mapping valid_transformation numbered
              (pump_mapping None (Some [to_pump None None])) "admin" empty_world)
    as [Hfail _].
  apply Hfail.
  right. right. right. split; [reflexivity |].
  exists (to_pump None None). split; [now left | reflexivity].
Defined.

(** C7: the mapping 7 is found while the listing of its transformations
    fails: the mapping is cached without its transformation, and a later
    lookup with a working store still answers the incomplete mapping. *)
Lemma partial_mapping_is_cached :
  let first := findByID listing_fails "7" true stored_world in
  let later := findByID no_faults "7" true first.2 in
  first.1 = Success (pump_mapping (Some "7") None)
  /\ cache first.2 !! idKey (Some "7") = Some (pump_mapping (Some "7") None)
  /\ cache first.2 !! shapeKey (Some "5") (Some "9f2c")
     = Some (pump_mapping (Some "7") None)
  /\ (ListForTypeMapping no_faults (Some "7") stored_world).1
     = Success [to_pump (Some "3") (Some "7")]
  /\ later.1 = Success (pump_mapping (Some "7") None)
  /\ (findByID no_faults "7" true stored_world).1
     = Success (pump_mapping (Some "7") (Some [to_pump (Some "3") (Some "7")])).
Proof. cbv zeta. repeat split; vm_compute; reflexivity. Qed.

(** C8 as stated fails on the shape hash of the mapping, which survives
    [prepareForImport]. *)
Lemma prepareForImport_keeps_shape_hash :
  let prepared :=
    prepareForImport keep_keys
      (pump_mapping (Some "7") (Some [to_pump (Some "3") (Some "7")])) true in
  shape_hash prepared = Some "9f2c"
  /\ shape_hash prepared <> None.
Proof. cbv zeta. split; [reflexivity | discriminate]. Qed.

Lemma prepareForImport_clears_identity_witness :
  let imported :=
    mappingForImport keep_keys keep_ids other_source
      (pump_mapping (Some "7") (Some [to_pump (Some "3") (Some "7")])) in
  id imported = None
  /\ container_id imported = Some "2"
  /\ data_source_id imported = Some "6"
  /\ active imported = false.
Proof.
  cbv zeta.
  destruct (prepareForImport_clears_identity keep_keys keep_ids
              (pump_mapping (Some "7") (Some [to_pump (Some "3") (Some "7")])))
    as (_ & _ & _ & _ & _ & _ & _ & _ & _ & _ & Himport).
  apply (Himport other_source). reflexivity.
Defined.

End TypeMappingRuns.

(** ** The changelist repository *)
Module ChangelistFacts.
Import Changelists ChangelistSamples.

Section Revoking.

Variable faults : Faults.

(** C9: when its two statements run, [revokeApproval] leaves no approval
    record of the changelist in the table (the rows are removed, the
    records of other changelists are the rows that remain, unchanged and in
    order) and every changelist with that id has the status rejected, the
    other changelists being as before. *)
Theorem revokeApproval_deletes_and_rejects
  (changelistID approverID : string) (db : Database) :
  set_status_fails faults = false ->
  delete_approvals_fails faults = false ->
  let after := (revokeApproval faults changelistID approverID db).2 in
  (revokeApproval faults changelistID approverID db).1 = Success true
  /\ listApprovals changelistID after = []
  /\ changelist_approvals after
     = List.filter (fun a => negb (is_id changelistID (changelist_id a)))
         (changelist_approvals db)
  /\ length (changelists after) = length (changelists db)
  /\ Forall (fun c => is_id changelistID (id c) = true -> status c = rejected)
       (changelists after)
  /\ (forall c, In c (changelists db) -> is_id changelistID (id c) = false ->
                In c (changelists after)).
Proof.
  intros Hs Hd. cbv zeta. unfold revokeApproval, SetStatus, DeleteByChangelist.
  rewrite Hs, Hd. cbn [fst snd changelists changelist_approvals setStatusStatement].
  split; [reflexivity |]. split; [| split; [reflexivity |]]; [| split; [| split]].
  - unfold listApprovals. cbn [changelist_approvals].
    induction (changelist_approvals db) as [| a l IH]; [reflexivity |].
    cbn [List.filter]. destruct (is_id changelistID (changelist_id a)) eqn:Ha.
    + exact IH.
    + cbn [negb List.filter]. now rewrite Ha.
  - now rewrite length_map.
  - apply Forall_map. apply Forall_forall. intros c _.
    destruct (is_id changelistID (id c)) eqn:Hc; cbn [id status].
    + reflexivity.
    + rewrite Hc. discriminate.
  - intros c Hin Hc. apply in_map_iff. exists c. now rewrite Hc.
Qed.

End Revoking.

Lemma revokeApproval_deletes_and_rejects_witness :
  let after := (revokeApproval no_faults "4" "admin" reviewed).2 in
  changelist_approvals after = [approval "2" "5"]
  /\ map status (changelists after) = [rejected; approved].
Proof.
  cbv zeta.
  destruct (revokeApproval_deletes_and_rejects no_faults "4" "admin" reviewed
              eq_refl eq_refl) as (_ & _ & Happ & _).
  split; [rewrite Happ |]; reflexivity.
Defined.

End ChangelistFacts.

(** * Further properties *)

(** ** [breakQuery]: what it keeps of the filter string *)
Module BreakQueryMore.
Import BreakQuery BreakQueryFacts.

Lemma breakQuery_cut (query : string) :
  breakQuery query
  = if is_operator (before_space query)
    then (before_space query, after_space query)
    else ("eq", query).
Proof.
  unfold breakQuery, JS.split.
  pose proof (head_split_from query EmptyString) as Hh.
  pose proof (tail_split_from query EmptyString) as Ht.
  destruct (JS.split_from " " 0 EmptyString query) as [| p ps] eqn:Hs; [discriminate |].
  cbn [head tail] in Hh, Ht. rewrite app_empty_l in Hh. injection Hh as ->.
  unfold JS.includes, is_operator. cbn [head JS.shift].
  destruct (existsb (String.eqb (before_space query)) operators).
  - cbn [negb default]. now rewrite Ht.
  - reflexivity.
Qed.

(** A string is its text before the first space, and, when it has a space,
    that space and the text after it. *)
Lemma cut_at_space (s : string) :
  (s = before_space s /\ after_space s = EmptyString)
  \/ s = before_space s +:+ " " +:+ after_space s.
Proof.
  induction s as [| c s IH]; [left; split; reflexivity |].
  cbn [before_space after_space]. destruct (Ascii.eqb c " ") eqn:Hc.
  - apply Ascii.eqb_eq in Hc. subst c. right. reflexivity.
  - destruct IH as [[H1 H2] | H].
    + left. split; [now rewrite <- H1 | exact H2].
    + right. rewrite app_String. now rewrite <- H.
Qed.

Lemma is_operator_cases (tok : string) :
  is_operator tok = true ->
  tok = "eq" \/ tok = "neq" \/ tok = "like" \/ tok = "in" \/ tok = "<" \/ tok = ">".
Proof.
  unfold is_operator, operators. cbn [existsb]. intros H.
  repeat (apply orb_true_iff in H as [H | H];
          [apply String.eqb_eq in H; auto 7 |]).
  discriminate.
Qed.

(** X1: the operator [breakQuery] answers is always one of the six, and
    nothing of the filter string is lost: either the answer is ['eq'] with
    the whole string, or the string is the operator alone (the value is then
    empty), or it is the operator, one space and the value. *)
Theorem breakQuery_keeps_the_query (query : string) :
  is_operator (breakQuery query).1 = true
  /\ (breakQuery query = ("eq", query)
      \/ (query = (breakQuery query).1 /\ (breakQuery query).2 = EmptyString)
      \/ query = (breakQuery query).1 +:+ " " +:+ (breakQuery query).2).
Proof.
  rewrite breakQuery_cut.
  destruct (is_operator (before_space query)) eqn:Hop; cbn [fst snd].
  - split; [exact Hop |]. right. apply cut_at_space.
  - split; [reflexivity | now left].
Qed.

(** X2: an operator written out, a space and a value are read back as that
    operator and that value, whatever the value holds (further spaces,
    operator words, nothing at all). *)
Theorem breakQuery_reads_back (operator value : string) :
  is_operator operator = true ->
  breakQuery (operator +:+ " " +:+ value) = (operator, value).
Proof.
  intros Hop. rewrite breakQuery_cut.
  destruct (is_operator_cases operator Hop) as [-> | [-> | [-> | [-> | [-> | ->]]]]];
    reflexivity.
Qed.

Lemma breakQuery_reads_back_witness :
  breakQuery ("like" +:+ " " +:+ "in %a b%") = ("like", "in %a b%").
Proof. apply (breakQuery_reads_back "like" "in %a b%"). reflexivity. Defined.

End BreakQueryMore.

(** ** The resolver: arguments it cannot compile, and what it compiles *)
Module ResolverMore.
Import Schema RelationshipInputs Samples.




Section Compiling.

Variable stringToValidPropertyName : string -> string.
Variable toJSString : JSON -> string.
Variable toISOString : Z -> string.
Variable findByRelationship : string -> string -> option string -> EdgeLookup.

Local Abbreviation buildQuery' :=
  (buildQuery stringToValidPropertyName toJSString findByRelationship).
Local Abbreviation resolver' :=
  (resolverForMetatype stringToValidPropertyName toJSString toISOString
     findByRelationship).



(** X5: an [original_id] filter that is not a string (the schema types it
    as JSON, so it may be a number) makes the resolver reject with the type
    error of calling [split] on it; the node query is never run. *)
Theorem original_id_must_be_a_string (repo : NodeRepository) (containerID : string)
  (metatype : Metatype) (input : ResolverInput) :
  original_id_is_string input = false ->
  resolver' repo containerID metatype input
  = (Rejected (TypeError "query.split is not a function"), []).
Proof.
  intros H. unfold original_id_is_string in H.
  unfold resolverForMetatype, buildQuery.
  destruct (_record input) as [r |]; [| discriminate].
  apply orb_false_iff in H as [Ht Hs]. apply negb_false_iff in Ht.
  unfold recordPredicates. rewrite Ht.
  destruct (rec_original_id r) as [[| b | z | s | items] |]; try discriminate;
    reflexivity.
Qed.

(** X6: a [_relationship] argument without a relationship key, or whose
    first relationship has an empty list of destinations, makes the
    resolver reject with a type error before any edge or node is looked
    up. *)
Theorem empty_relationship_rejects (repo : NodeRepository) (containerID : string)
  (metatype : Metatype) (input : ResolverInput) :
  _relationship input = Some []
  \/ (exists relationship more, _relationship input = Some ((relationship, []) :: more)) ->
  exists msg, resolver' repo containerID metatype input = (Rejected (TypeError msg), []).
Proof.
  intros Hrel. unfold resolverForMetatype, buildQuery.
  assert (Hrec : (exists ps, match _record input with
                             | Some r => recordPredicates r
                             | None => Ok []
                             end = Ok ps)
                 \/ match _record input with
                    | Some r => recordPredicates r
                    | None => Ok []
                    end = Throw (TypeError "query.split is not a function")).
  { destruct (_record input) as [r |]; [| left; eauto].
    unfold recordPredicates. destruct (truthy (rec_original_id r)); [| left; cbn; eauto].
    destruct (rec_original_id r) as [[| b | z | s | items] |]; cbn; eauto. }
  destruct Hrec as [[ps Hps] | Hthrow].
  - rewrite Hps. cbn [obind].
    destruct Hrel as [-> | (relationship & more & ->)]; cbn; eauto.
  - rewrite Hthrow. cbn. eauto.
Qed.

Lemma buildQuery_parts (containerID : string) (metatype : Metatype)
  (input : ResolverInput) (q : Query) :
  buildQuery' containerID metatype input = Ok q ->
  exists recordPs relationshipPs propertyPs,
    match _record input with
    | Some r => recordPredicates r
    | None => Ok []
    end = Ok recordPs
    /\ match _relationship input with
       | Some ri =>
           obind (relationshipPredicate findByRelationship metatype ri)
             (fun p => Ok [p])
       | None => Ok []
       end = Ok relationshipPs
    /\ propertyPredicates toJSString
         (propertyMap stringToValidPropertyName metatype) (arguments input)
       = Ok propertyPs
    /\ q = {| predicates :=
                [ContainerID "eq" containerID; MetatypeID "eq" (metatype_id metatype)]
                  ++ recordPs ++ relationshipPs ++ propertyPs;
              loadRelationships := true;
              limit := Some 10000%Z |}.
Proof.
  unfold buildQuery. intros Hq.
  destruct (match _record input with
            | Some r => recordPredicates r
            | None => Ok []
            end) as [ps1 | e1]; cbn [obind] in Hq; [| discriminate].
  destruct (match _relationship input with
            | Some ri => _
            | None => Ok []
            end) as [ps2 | e2]; cbn [obind] in Hq; [| discriminate].
  destruct (propertyPredicates toJSString _ (arguments input)) as [ps3 | e3];
    cbn [obind] in Hq; [| discriminate].
  injection Hq as <-. exists ps1, ps2, ps3. repeat split.
Qed.

Lemma In_firstn {A} (x : A) (n : nat) (l : list A) : In x (firstn n l) -> In x l.
Proof.
  intros Hin. rewrite <- (firstn_skipn n l). apply in_or_app. now left.
Qed.

(** X7: when the edge lookup of the [_relationship] filter finds edges, the
    field resolves to rows whose ids are all origins of those edges, at most
    10000 of them, and nothing is logged (the repository answers). *)
Theorem matching_edges_restrict_rows (repo : NodeRepository) (containerID : string)
  (metatype : Metatype) (input : ResolverInput) (q : Query)
  (relationship : string) (d : DestinationInput) (ds : list DestinationInput)
  (more : RelationshipInput) (edges : list Edge) :
  buildQuery' containerID metatype input = Ok q ->
  _relationship input = Some ((relationship, d :: ds) :: more) ->
  findByRelationship (metatype_name metatype)
    (JS.replace_first "_" " " relationship) (head (map fst d))
  = EdgeResult (Some edges) ->
  edges <> [] ->
  failure repo = None ->
  exists rows,
    resolver' repo containerID metatype input = (Resolved (Rows rows), [])
    /\ Forall (fun row => In (info_id (out_record row)) (map origin_id edges)) rows
    /\ (Z.of_nat (length rows) <= 10000)%Z.
Proof.
  intros Hq Hrel Hedges Hne Hfail.
  destruct (buildQuery_parts _ _ _ _ Hq) as (ps1 & ps2 & ps3 & _ & H2 & _ & ->).
  rewrite Hrel in H2. cbn [relationshipPredicate] in H2. rewrite Hedges in H2.
  destruct edges as [| e0 edges]; [congruence |].
  cbn [length Nat.eqb negb obind] in H2. injection H2 as <-.
  set (filterIn := Id "in" (IdList (map origin_id (e0 :: edges)))) in *.
  unfold resolverForMetatype. rewrite Hq. unfold list_nodes. rewrite Hfail.
  cbn [predicates limit capped settle onFulfilled isError value pending resolve
         settled logged].
  eexists. split; [reflexivity |]. split.
  - apply Forall_map. apply Forall_forall. intros n Hn.
    apply list_elem_of_In in Hn. apply In_firstn in Hn. apply filter_In in Hn as [_ Hn].
    rewrite forallb_forall in Hn.
    assert (Hin : In filterIn
                    ([ContainerID "eq" containerID; MetatypeID "eq" (metatype_id metatype)]
                       ++ ps1 ++ [filterIn] ++ ps3)).
    { apply in_or_app. right. apply in_or_app. right. now left. }
    specialize (Hn _ Hin).
    change (existsb (Z.eqb (node_id n)) (map origin_id (e0 :: edges)) = true) in Hn.
    apply existsb_exists in Hn as (z & Hz & Heq). apply Z.eqb_eq in Heq.
    cbn [reshape out_record info_id]. now rewrite Heq.
  - rewrite length_map.
    match goal with
    | |- context [firstn ?n ?l] => pose proof (firstn_le_length n l) as Hlen
    end.
    lia.
Qed.

Lemma propertyMap_fold_other (ks : list MetatypeKey) (name : string) :
  forall m : gmap string (string * string),
    ~ In name (map (fun k => stringToValidPropertyName (property_name k)) ks) ->
    foldl (fun m k => <[stringToValidPropertyName (property_name k)
                         := (property_name k, data_type k)]> m) m ks !! name
    = m !! name.
Proof.
  induction ks as [| a ks IH]; intros m Hnot; [reflexivity |].
  cbn [foldl]. rewrite IH.
  - apply lookup_insert_ne. intros Heq. apply Hnot. left. exact Heq.
  - intros Hin. apply Hnot. right. exact Hin.
Qed.

Lemma propertyMap_fold_lookup (ks : list MetatypeKey) (k : MetatypeKey) :
  forall m : gmap string (string * string),
    List.NoDup (map (fun k => stringToValidPropertyName (property_name k)) ks) ->
    In k ks ->
    foldl (fun m k => <[stringToValidPropertyName (property_name k)
                         := (property_name k, data_type k)]> m) m ks
      !! stringToValidPropertyName (property_name k)
    = Some (property_name k, data_type k).
Proof.
  induction ks as [| a ks IH]; intros m Hnd Hin; [destruct Hin |].
  cbn [map] in Hnd. apply List.NoDup_cons_iff in Hnd as [Hfresh Hnd].
  cbn [foldl]. destruct Hin as [-> | Hin]; [| now apply IH].
  rewrite propertyMap_fold_other by exact Hfresh. apply lookup_insert_eq.
Qed.

Lemma propertyMap_lookup (metatype : Metatype) (ks : list MetatypeKey)
  (k : MetatypeKey) :
  keys metatype = Some ks ->
  List.NoDup (map (fun k => stringToValidPropertyName (property_name k)) ks) ->
  In k ks ->
  propertyMap stringToValidPropertyName metatype
    !! stringToValidPropertyName (property_name k)
  = Some (property_name k, data_type k).
Proof.
  intros Hkeys Hnd Hin. unfold propertyMap. rewrite Hkeys.
  now apply propertyMap_fold_lookup.
Qed.

Lemma propertyPredicates_member (pm : gmap string (string * string))
  (args : list (string * JSON)) (key : string) (v : JSON) (name dt : string) :
  forall ps,
    propertyPredicates toJSString pm args = Ok ps ->
    In (key, v) args ->
    String.eqb key "_record" || String.eqb key "_relationship" = false ->
    pm !! key = Some (name, dt) ->
    In (Property name (BreakQuery.breakQuery (toJSString v)).1
          (BreakQuery.breakQuery (toJSString v)).2 dt) ps.
Proof.
  induction args as [| [key' v'] args IH]; intros ps Hps Hin Hres Hpm; [destruct Hin |].
  cbn [propertyPredicates] in Hps.
  destruct (String.eqb key' "_record" || String.eqb key' "_relationship") eqn:Hres'.
  - destruct Hin as [Heq | Hin]; [injection Heq as -> ->; congruence |].
    now apply IH.
  - destruct (pm !! key') as [[name' dt'] |] eqn:Hpm'; [| discriminate].
    destruct (propertyPredicates toJSString pm args) as [ps' | e]; [| discriminate].
    cbn [obind] in Hps. injection Hps as <-.
    destruct Hin as [Heq | Hin].
    + injection Heq as -> ->. rewrite Hpm in Hpm'. injection Hpm' as <- <-. now left.
    + right. now apply IH.
Qed.

(** X8: a filter argument on a key of the metatype is compiled into a
    property predicate on the real property name of the key (not the
    sanitized one), with the declared data type of the key and the operator
    and value that [breakQuery] reads from the argument. Names of the keys
    are distinct after sanitization. *)
Theorem argument_becomes_property_predicate (containerID : string)
  (metatype : Metatype) (ks : list MetatypeKey) (k : MetatypeKey)
  (input : ResolverInput) (v : JSON) (q : Query) :
  keys metatype = Some ks ->
  List.NoDup (map (fun k => stringToValidPropertyName (property_name k)) ks) ->
  In k ks ->
  In (stringToValidPropertyName (property_name k), v) (arguments input) ->
  String.eqb (stringToValidPropertyName (property_name k)) "_record"
  || String.eqb (stringToValidPropertyName (property_name k)) "_relationship" = false ->
  buildQuery' containerID metatype input = Ok q ->
  In (Property (property_name k)
        (BreakQuery.breakQuery (toJSString v)).1
        (BreakQuery.breakQuery (toJSString v)).2
        (data_type k))
     (predicates q).
Proof.
  intros Hkeys Hnd Hin Harg Hres Hq.
  destruct (buildQuery_parts _ _ _ _ Hq) as (ps1 & ps2 & ps3 & _ & _ & H3 & ->).
  cbn [predicates]. do 3 (apply in_or_app; right).
  apply (propertyPredicates_member _ _ _ _ _ _ _ H3 Harg Hres).
  now apply propertyMap_lookup with (ks := ks).
Qed.




End Compiling.

End ResolverMore.

(** ** The pair-grouping structure and the relationship input types *)
Module PairMore.
Import Schema RelationshipInputs Samples PairFacts.


(** The first-level keys after [populate]. *)
Lemma populate_origins (a b c : string)
  (m : gmap string (gmap string (gmap string GraphQLType))) (x : string) :
  is_Some (populate a b c m !! x) -> x = a \/ is_Some (m !! x).
Proof.
  unfold populate, ensure3, ensure2, ensure1. intros H.
  destruct (decide (x = a)) as [-> | Hne]; [now left | right].
  repeat match type of H with
         | context [match ?o with Some _ => _ | None => _ end] => destruct o
         end;
    repeat (rewrite lookup_alter_ne in H by congruence);
    repeat (rewrite lookup_insert_ne in H by congruence);
    exact H.
Qed.

Section Entries.

Variable stringToValidPropertyName : string -> string.


Lemma addPairs_origins (pairs : list MetatypeRelationshipPair) :
  forall (m m' : gmap string (gmap string (gmap string GraphQLType))) (x : string),
    addPairs stringToValidPropertyName m pairs = Some m' ->
    is_Some (m' !! x) ->
    is_Some (m !! x) \/ exists s, x = stringToValidPropertyName s.
Proof.
  induction pairs as [| q pairs IH]; intros m m' x Hm Hx.
  - injection Hm as <-. now left.
  - cbn [addPairs] in Hm. unfold addPair in Hm.
    destruct (namePart 0 (pair_name q)) as [o |]; [| discriminate].
    destruct (namePart 1 (pair_name q)) as [r |]; [| discriminate].
    destruct (namePart 2 (pair_name q)) as [d |]; [| discriminate].
    cbn in Hm. destruct (IH _ _ x Hm Hx) as [H | H]; [| now right].
    apply populate_origins in H as [-> | H]; [right; eauto |].
    apply populate_origins in H as [-> | H]; [right; eauto | now left].
Qed.


End Entries.

Lemma map_fold_insert_keys {V} (g : string -> V -> GraphQLType)
  (rels : gmap string V) (init : gmap string GraphQLType) (k : string) :
  is_Some (map_fold (fun key v fields => <[key := g key v]> fields) init rels !! k)
  <-> is_Some (rels !! k) \/ is_Some (init !! k).
Proof.
  rewrite map_fold_foldr.
  assert (Hlist : is_Some (rels !! k) <-> exists v, In (k, v) (map_to_list rels)).
  { split.
    - intros [v Hv]. exists v. apply list_elem_of_In. now apply elem_of_map_to_list.
    - intros [v Hv]. exists v. apply elem_of_map_to_list. now apply list_elem_of_In. }
  rewrite Hlist. clear Hlist.
  induction (map_to_list rels) as [| [key v] l IH]; cbn [foldr uncurry curry].
  - split; [now right | intros [[v []] | H]; exact H].
  - unfold uncurry at 1. cbn [fst snd].
    destruct (decide (key = k)) as [-> | Hne].
    + rewrite lookup_insert_eq. split; [intros _; left; exists v; now left | eauto].
    + rewrite lookup_insert_ne by exact Hne. rewrite IH. split.
      * intros [[v' Hv'] | H]; [left; exists v'; now right | now right].
      * intros [[v' [Heq | Hv']] | H]; [congruence | left; eauto | now right].
Qed.

(** X11: the relationship input type of a metatype has a field exactly for
    every relationship grouped under the name of the metatype, taken as it
    is (not sanitized). *)
Theorem relationship_input_fields
  (pairList : gmap string (gmap string (gmap string GraphQLType)))
  (metatype : Metatype) (rel : string) :
  is_Some (relationshipInputFields pairList metatype !! rel)
  <-> exists rels, pairList !! metatype_name metatype = Some rels
                   /\ is_Some (rels !! rel).
Proof.
  unfold relationshipInputFields.
  destruct (pairList !! metatype_name metatype) as [rels |].
  - rewrite (map_fold_insert_keys
               (fun _ _ => GraphQLList
                             (GraphQLNamed (metatype_name metatype +:+ "_destination_input")))).
    split.
    + intros [H | [v Hv]]; [eauto | rewrite lookup_empty in Hv; discriminate].
    + intros (rels' & Heq & H). injection Heq as <-. now left.
  - split.
    + intros [v Hv]. rewrite lookup_empty in Hv. discriminate.
    + intros (rels' & Heq & _). discriminate.
Qed.

Section Unsanitized.

Variable stringToValidPropertyName : string -> string.

(** X12: the pair list is keyed by sanitized names but the input types of a
    metatype look it up by the name of the metatype as it is: for a
    metatype whose name is no sanitized name (it holds a character the
    sanitizer never yields) both relationship input types are empty,
    whatever pairs the container has. *)
Theorem unsanitized_name_has_no_relationship_input
  (pairs : list MetatypeRelationshipPair)
  (m : gmap string (gmap string (gmap string GraphQLType)))
  (metatype : Metatype) :
  metatypePairList stringToValidPropertyName pairs = Some m ->
  (forall s, stringToValidPropertyName s <> metatype_name metatype) ->
  relationshipInputFields m metatype = ∅
  /\ destinationInputFields m metatype = ∅.
Proof.
  intros Hm Hname.
  assert (Hnone : m !! metatype_name metatype = None).
  { destruct (m !! metatype_name metatype) as [rels |] eqn:Hrels; [| reflexivity].
    destruct (addPairs_origins stringToValidPropertyName pairs ∅ m
                (metatype_name metatype) Hm) as [[v Hv] | [s Hs]].
    - rewrite Hrels. eauto.
    - rewrite lookup_empty in Hv. discriminate.
    - exfalso. apply (Hname s). now symmetry. }
  unfold relationshipInputFields, destinationInputFields. now rewrite Hnone.
Qed.

End Unsanitized.

End PairMore.

(** ** The type-mapping repository: cache, classification, import *)
Module TypeMappingMore.
Import TypeMappings MappingSamples TypeMappingFacts.




Section Cached.

Variable faults : Faults.


End Cached.

Section Classifying.

Variable transformationErrors : TypeTransformation -> option (list string).

(** X14: when every transformation passes validation, the loop of
    [saveTransformations] attaches each of them to the mapping and sorts
    them, in order, into those with an id (to update) and those without (to
    create): no transformation is in both lists or in neither. *)
Theorem transformations_are_partitioned (mappingID : option string)
  (trs : list TypeTransformation) :
  forall (w : World) upd cre trs' w',
    classify transformationErrors mappingID trs w = (Success (upd, cre), trs', w') ->
    trs' = map (set_type_mapping_id mappingID) trs
    /\ upd = List.filter (fun tr => JS.truthy_string (tr_id tr)) trs'
    /\ cre = List.filter (fun tr => negb (JS.truthy_string (tr_id tr))) trs'
    /\ length upd + length cre = length trs.
Proof.
  induction trs as [| a trs IH]; intros w upd cre trs' w' Hc.
  - injection Hc as <- <- <- <-. repeat split.
  - cbn [classify] in Hc.
    destruct (transformationErrors (set_type_mapping_id mappingID a)); [discriminate |].
    destruct (classify transformationErrors mappingID trs
                (deleteCachedTransformation a w))
      as [[[[upd0 cre0] | e'] rest'] w2] eqn:Hrest; [| discriminate].
    destruct (IH _ _ _ _ _ Hrest) as (-> & -> & -> & Hlen).
    destruct (JS.truthy_string (tr_id (set_type_mapping_id mappingID a))) eqn:Hid;
      injection Hc as <- <- <- <-; cbn [map List.filter length]; rewrite Hid;
      cbn [negb length]; repeat split; lia.
Qed.

End Classifying.

Section SameContainer.

Variable populateKeys : TypeTransformation -> TypeTransformation.

(** X15: prepared for an import into the same container
    ([separateContainer] false), a mapping keeps its container id and shape
    hash, and its transformations keep their metatype and relationship pair
    ids, their keys with the key ids, and their other fields; only the ids
    of the rows, the data source and the audit fields go. Preparing a
    prepared mapping again changes nothing. *)
Theorem same_container_import_keeps_references (typeMapping : TypeMapping) :
  let prepared := prepareForImport populateKeys typeMapping false in
  container_id prepared = container_id typeMapping
  /\ shape_hash prepared = shape_hash typeMapping
  /\ id prepared = None /\ data_source_id prepared = None
  /\ (map tr_metatype_id <$> transformations prepared)
     = (map tr_metatype_id <$> transformations typeMapping)
  /\ (map tr_metatype_relationship_pair_id <$> transformations prepared)
     = (map tr_metatype_relationship_pair_id <$> transformations typeMapping)
  /\ (map tr_keys <$> transformations prepared)
     = (map tr_keys <$> transformations typeMapping)
  /\ (map tr_other <$> transformations prepared)
     = (map tr_other <$> transformations typeMapping)
  /\ prepareForImport populateKeys prepared false = prepared.
Proof.
  cbv zeta. unfold prepareForImport. cbn [container_id shape_hash id data_source_id
    transformations removedTransformations active].
  destruct (transformations typeMapping) as [trs |]; cbn [fmap option_fmap option_map].
  - repeat split; f_equal; rewrite map_map; reflexivity.
  - repeat split.
Qed.

End SameContainer.

End TypeMappingMore.

(** ** The type-mapping repository: what a save does to the cache *)
Module SaveCache.
Import TypeMappings TypeMappingNotions MappingSamples TypeMappingFacts.

Lemma shrinks_refl (w : World) : cache_shrinks w w.
Proof. intros k v H. exact H. Qed.

Lemma shrinks_trans (w1 w2 w3 : World) :
  cache_shrinks w1 w2 -> cache_shrinks w2 w3 -> cache_shrinks w1 w3.
Proof. intros H1 H2 k v H. apply H1, H2, H. Qed.

Lemma shrinks_same (w w' : World) : cache w' = cache w -> cache_shrinks w w'.
Proof. intros Heq k v H. now rewrite <- Heq. Qed.

Lemma shrinks_del (k : string) (w : World) :
  cache_shrinks w (note (CacheDel k) (with_cache (delete k (cache w)) w)).
Proof.
  intros k' v H. cbn [cache note with_cache] in H.
  apply lookup_delete_Some in H as [_ H]. exact H.
Qed.

Lemma shrinks_deleteCached (t : TypeMapping) (w : World) :
  cache_shrinks w (deleteCached t w).
Proof.
  unfold deleteCached. cbv zeta. eapply shrinks_trans; apply shrinks_del.
Qed.

Lemma deleteCached_clears (t : TypeMapping) (w : World) :
  cache (deleteCached t w) !! idKey (id t) = None
  /\ cache (deleteCached t w) !! shapeKey (data_source_id t) (shape_hash t) = None.
Proof.
  unfold deleteCached. cbn [cache note with_cache]. split.
  - apply lookup_delete_None. right. apply lookup_delete_eq.
  - apply lookup_delete_eq.
Qed.

Lemma shrinks_deleteCachedTransformation (tr : TypeTransformation) (w : World) :
  cache_shrinks w (deleteCachedTransformation tr w).
Proof. unfold deleteCachedTransformation. apply shrinks_del. Qed.

Lemma shrinks_deleteCachedTransformations (trs : list TypeTransformation) :
  forall w, cache_shrinks w (foldl (fun w tr => deleteCachedTransformation tr w) w trs).
Proof.
  induction trs as [| tr trs IH]; intros w; [apply shrinks_refl |].
  cbn [foldl]. eapply shrinks_trans; [apply shrinks_deleteCachedTransformation | apply IH].
Qed.

Lemma cache_inTransaction {A} (statement : string) (fails : bool)
  (run : Tables -> A * Tables) (w : World) :
  cache (inTransaction statement fails run w).2 = cache w.
Proof.
  unfold inTransaction. destruct (open_tx w); [| reflexivity].
  destruct fails; [reflexivity |]. destruct (run t). reflexivity.
Qed.

Section Saving.

Variable faults : Faults.
Variable mappingErrors : TypeMapping -> option (list string).
Variable transformationErrors : TypeTransformation -> option (list string).
Variable newId : nat -> string.

Lemma cache_startTransaction (w : World) :
  cache (startTransaction faults w).2 = cache w.
Proof. unfold startTransaction. destruct (start_fails faults); reflexivity. Qed.

Lemma cache_completeTransaction (c : PoolClient) (w : World) :
  cache (completeTransaction faults c w).2 = cache w.
Proof.
  unfold completeTransaction. destruct (open_tx w); [| reflexivity].
  destruct (commit_fails faults); reflexivity.
Qed.

Lemma shrinks_ensureTransaction (transaction : option PoolClient) (w : World) :
  cache_shrinks w (ensureTransaction faults transaction w).2.
Proof.
  unfold ensureTransaction. destruct transaction; [apply shrinks_refl |].
  pose proof (cache_startTransaction w) as H.
  destruct (startTransaction faults w) as [[c | e] w1]; apply shrinks_same; exact H.
Qed.

Lemma shrinks_rollbackIfInternal (b : bool) (c : PoolClient) (w : World) :
  cache_shrinks w (rollbackIfInternal b c w).
Proof. destruct b; apply shrinks_same; reflexivity. Qed.

Lemma shrinks_commitIfInternal (b : bool) (c : PoolClient) (w : World) :
  cache_shrinks w (commitIfInternal faults b c w).2.
Proof.
  destruct b; cbn; [| apply shrinks_refl].
  apply shrinks_same, cache_completeTransaction.
Qed.

Lemma shrinks_classify (mappingID : option string) (trs : list TypeTransformation) :
  forall w, cache_shrinks w (classify transformationErrors mappingID trs w).2.
Proof.
  induction trs as [| tr trs IH]; intros w; [apply shrinks_refl |].
  cbn [classify].
  destruct (transformationErrors (set_type_mapping_id mappingID tr)).
  - apply shrinks_deleteCachedTransformation.
  - specialize (IH (deleteCachedTransformation tr w)).
    destruct (classify transformationErrors mappingID trs
                (deleteCachedTransformation tr w))
      as [[[[upd cre] | e] rest'] w2]; cbn [snd] in *;
      (eapply shrinks_trans; [apply shrinks_deleteCachedTransformation | exact IH]).
Qed.

Lemma shrinks_removeStep (t : TypeMapping) (c : PoolClient) (w : World) :
  cache_shrinks w (removeStep faults t c w).2.
Proof.
  unfold removeStep. destruct (removedTransformations t) as [[| r rs] |];
    try apply shrinks_refl.
  unfold BulkDelete.
  eapply shrinks_trans; [apply shrinks_deleteCachedTransformations |].
  apply shrinks_same, cache_inTransaction.
Qed.

Lemma shrinks_updateStep (userID : string) (upd : list TypeTransformation)
  (c : PoolClient) (w : World) :
  cache_shrinks w (updateStep faults userID upd c w).2.
Proof.
  unfold updateStep. destruct upd; [apply shrinks_refl |].
  apply shrinks_same, cache_inTransaction.
Qed.

Lemma shrinks_createStep (userID : string) (cre : list TypeTransformation)
  (c : PoolClient) (w : World) :
  cache_shrinks w (createStep faults newId userID cre c w).2.
Proof.
  unfold createStep. destruct cre; [apply shrinks_refl |].
  apply shrinks_same, cache_inTransaction.
Qed.

Lemma shrinks_Update (userID : string) (t : TypeMapping) (c : PoolClient)
  (w : World) :
  cache_shrinks w (Update faults userID t c w).2.
Proof. unfold Update. apply shrinks_same, cache_inTransaction. Qed.

Lemma shrinks_CreateOrUpdate (userID : string) (t : TypeMapping) (c : PoolClient)
  (w : World) :
  cache_shrinks w (CreateOrUpdate faults newId userID t c w).2.
Proof. unfold CreateOrUpdate. apply shrinks_same, cache_inTransaction. Qed.

Ltac shrink :=
  repeat match goal with
         | H : cache_shrinks ?a ?b |- cache_shrinks ?a ?c =>
             apply (shrinks_trans a b c H); clear H
         end;
  first [ apply shrinks_refl
        | apply shrinks_rollbackIfInternal
        | apply shrinks_same; reflexivity ].

Lemma shrinks_saveTransformationsWithin (userID : string) (t : TypeMapping)
  (c : PoolClient) (internal : bool) (w : World) :
  cache_shrinks w
    (saveTransformationsWithin faults transformationErrors newId userID t c internal w).2.
Proof.
  unfold saveTransformationsWithin.
  pose proof (shrinks_removeStep t c w) as H1.
  destruct (removeStep faults t c w) as [[ok | e1] w2]; cbn [snd] in H1.
  2:{ cbn [snd]. shrink. }
  destruct (transformations t) as [[| tr0 trs] |].
  - pose proof (shrinks_commitIfInternal internal c w2) as H2.
    destruct (commitIfInternal faults internal c w2) as [[ok' | e'] w3];
      cbn [snd] in *; shrink.
  - pose proof (shrinks_classify (id t) (tr0 :: trs) w2) as H2.
    destruct (classify transformationErrors (id t) (tr0 :: trs) w2)
      as [[[[upd cre] | e2] trs'] w3]; cbn [snd] in H2.
    2:{ cbn [snd]. shrink. }
    pose proof (shrinks_updateStep userID upd c w3) as H3.
    destruct (updateStep faults userID upd c w3) as [[updated | e3] w4]; cbn [snd] in H3.
    2:{ cbn [snd]. shrink. }
    pose proof (shrinks_createStep userID cre c w4) as H4.
    destruct (createStep faults newId userID cre c w4) as [[created | e4] w5];
      cbn [snd] in H4.
    2:{ cbn [snd]. shrink. }
    pose proof (shrinks_commitIfInternal internal c w5) as H5.
    destruct (commitIfInternal faults internal c w5) as [[ok' | e'] w6];
      cbn [snd] in *; shrink.
  - pose proof (shrinks_commitIfInternal internal c w2) as H2.
    destruct (commitIfInternal faults internal c w2) as [[ok' | e'] w3];
      cbn [snd] in *; shrink.
Qed.

Lemma shrinks_saveTransformations (userID : string) (t : TypeMapping)
  (transaction : option PoolClient) (w : World) :
  cache_shrinks w
    (saveTransformations faults transformationErrors newId userID t transaction w).2.
Proof.
  unfold saveTransformations.
  pose proof (shrinks_ensureTransaction transaction w) as H1.
  destruct (ensureTransaction faults transaction w) as [[[c internal] | e] w1];
    cbn [snd] in H1; [| exact H1].
  eapply shrinks_trans; [exact H1 | apply shrinks_saveTransformationsWithin].
Qed.

(** What follows the write of the mapping row, in both branches of [save]:
    the cache only loses entries. *)
Lemma shrinks_after_row (userID : string) (t1 : TypeMapping) (c : PoolClient)
  (saveTransformations_ : bool) (w : World) :
  cache_shrinks w
    (if saveTransformations_
     then saveTransformations faults transformationErrors newId userID t1 (Some c) w
     else (Success true, t1, w)).2.
Proof.
  destruct saveTransformations_; [apply shrinks_saveTransformations | apply shrinks_refl].
Qed.

Lemma save_shrinks_and_clears (t : TypeMapping) (userID : string)
  (saveTransformations_ : bool) (transaction : option PoolClient) (w : World) :
  let w' := (save faults mappingErrors transformationErrors newId t userID
               saveTransformations_ transaction w).2 in
  cache_shrinks w w'
  /\ (JS.truthy_string (id t) = true ->
      mappingErrors t = None ->
      transaction <> None \/ start_fails faults = false ->
      cache w' !! idKey (id t) = None
      /\ cache w' !! shapeKey (data_source_id t) (shape_hash t) = None).
Proof.
  cbv zeta. unfold save.
  destruct (mappingErrors t) as [errors |].
  { split; [apply shrinks_refl | discriminate]. }
  pose proof (shrinks_ensureTransaction transaction w) as H1.
  assert (Hstarted : transaction <> None \/ start_fails faults = false ->
                     exists p w1, ensureTransaction faults transaction w = (Success p, w1)).
  { unfold ensureTransaction, startTransaction.
    destruct transaction as [c |]; [eauto |].
    intros [H | H]; [congruence | rewrite H; eauto]. }
  destruct (ensureTransaction faults transaction w) as [[[c internal] | e] w1];
    cbn [snd] in H1.
  2:{ split; [exact H1 |]. intros _ _ Hs. destruct (Hstarted Hs) as (p & w1' & Heq).
      discriminate. }
  clear Hstarted.
  destruct (JS.truthy_string (id t)).
  - pose proof (shrinks_deleteCached t w1) as H2.
    destruct (deleteCached_clears t w1) as [Hc1 Hc2].
    set (w2 := deleteCached t w1) in *.
    assert (Htail : cache_shrinks w2
              (match Update faults userID t c w2 with
               | (Failure e, w3) => (Failure e, t, rollbackTransaction c w3)
               | (Success row, w3) =>
                   let t1 := assignMappingID (assign t row) in
                   match (if saveTransformations_
                          then saveTransformations faults transformationErrors newId
                                 userID t1 (Some c) w3
                          else (Success true, t1, w3)) with
                   | (Failure e, t2, w4) =>
                       (Failure ("unable to save mapping transformations " +:+ e), t2,
                        rollbackIfInternal internal c w4)
                   | (Success _, t2, w4) =>
                       match completeTransaction faults c w4 with
                       | (Failure e, w5) =>
                           (Failure ("unable to commit changes to database " +:+ e), t2,
                            rollbackIfInternal internal c w5)
                       | (Success _, w5) => (Success true, t2, w5)
                       end
                   end
               end).2).
    { pose proof (shrinks_Update userID t c w2) as H3.
      destruct (Update faults userID t c w2) as [[row | e3] w3]; cbn [snd] in H3.
      2:{ cbn [snd]. shrink. }
      cbv zeta.
      pose proof (shrinks_after_row userID (assignMappingID (assign t row)) c
                    saveTransformations_ w3) as H4.
      destruct (if saveTransformations_ then _ else _) as [[[ok | e4] t2] w4];
        cbn [snd] in H4.
      2:{ cbn [snd]. shrink. }
      pose proof (cache_completeTransaction c w4) as H5. apply shrinks_same in H5.
      destruct (completeTransaction faults c w4) as [[ok' | e5] w5]; cbn [snd] in *; shrink. }
    split.
    + eapply shrinks_trans; [exact H1 |]. eapply shrinks_trans; [exact H2 | exact Htail].
    + intros _ _ _. split.
      * match goal with
        | |- ?m !! ?k = None => destruct (m !! k) as [v |] eqn:Hv; [| reflexivity]
        end.
        apply Htail in Hv. congruence.
      * match goal with
        | |- ?m !! ?k = None => destruct (m !! k) as [v |] eqn:Hv; [| reflexivity]
        end.
        apply Htail in Hv. congruence.
  - split; [| discriminate].
    eapply shrinks_trans; [exact H1 |]. clear H1.
    pose proof (shrinks_CreateOrUpdate userID t c w1) as H3.
    destruct (CreateOrUpdate faults newId userID t c w1) as [[row | e3] w3];
      cbn [snd] in H3.
    2:{ cbn [snd]. shrink. }
    cbv zeta.
    pose proof (shrinks_after_row userID (assignMappingID (assign t row)) c
                  saveTransformations_ w3) as H4.
    destruct (if saveTransformations_ then _ else _) as [[[ok | e4] t2] w4];
      cbn [snd] in H4.
    2:{ cbn [snd]. shrink. }
    destruct internal; [| cbn [snd]; shrink].
    pose proof (cache_completeTransaction c w4) as H5. apply shrinks_same in H5.
    destruct (completeTransaction faults c w4) as [[ok' | e5] w5]; cbn [snd] in *; shrink.
Qed.

(** X16: a save never puts anything into the cache: whatever it is called
    with and however it ends, [save] and [saveTransformations] leave a
    cache whose entries were all there before, unchanged. *)
Theorem save_never_fills_the_cache (t : TypeMapping) (userID : string)
  (saveTransformations_ : bool) (transaction : option PoolClient) (w : World) :
  cache_shrinks w
    (save faults mappingErrors transformationErrors newId t userID
       saveTransformations_ transaction w).2
  /\ cache_shrinks w
       (saveTransformations faults transformationErrors newId userID t transaction w).2.
Proof.
  split; [| apply shrinks_saveTransformations].
  exact (proj1 (save_shrinks_and_clears t userID saveTransformations_ transaction w)).
Qed.


End Saving.

End SaveCache.

(** ** The type-mapping repository: a save inside the caller's transaction *)
Module CallersTransaction.
Import TypeMappings MappingSamples TypeMappingFacts.

Section Saving.

Variable faults : Faults.
Variable mappingErrors : TypeMapping -> option (list string).
Variable transformationErrors : TypeTransformation -> option (list string).
Variable newId : nat -> string.

Lemma inTransaction_runs {A} (statement : string) (run : Tables -> A * Tables)
  (w : World) :
  open_tx w <> None ->
  exists a w', inTransaction statement false run w = (Success a, w').
Proof.
  intros Hopen. unfold inTransaction. destruct (open_tx w) as [work |]; [| done].
  destruct (run work) as [a work']. eauto.
Qed.

Lemma Update_outcome (userID : string) (t : TypeMapping) (w : World) :
  quiet w (Update faults userID t Client w).2
  /\ (mapping_write_fails faults = true ->
      exists e, (Update faults userID t Client w).1 = Failure e)
  /\ (mapping_write_fails faults = false -> open_tx w <> None ->
      exists row, (Update faults userID t Client w).1 = Success row).
Proof.
  unfold Update. split; [apply quiet_inTransaction |].
  split; [apply quiet_inTransaction |].
  intros Hw Hopen. rewrite Hw.
  match goal with
  | |- context [inTransaction ?s false ?run w] =>
      destruct (inTransaction_runs s run w Hopen) as (a & w' & Heq); rewrite Heq
  end.
  eauto.
Qed.

Lemma CreateOrUpdate_outcome (userID : string) (t : TypeMapping) (w : World) :
  quiet w (CreateOrUpdate faults newId userID t Client w).2
  /\ (mapping_write_fails faults = true ->
      exists e, (CreateOrUpdate faults newId userID t Client w).1 = Failure e)
  /\ (mapping_write_fails faults = false -> open_tx w <> None ->
      exists row, (CreateOrUpdate faults newId userID t Client w).1 = Success row).
Proof.
  unfold CreateOrUpdate. split; [apply quiet_inTransaction |].
  split; [apply quiet_inTransaction |].
  intros Hw Hopen. rewrite Hw.
  match goal with
  | |- context [inTransaction ?s false ?run w] =>
      destruct (inTransaction_runs s run w Hopen) as (a & w' & Heq); rewrite Heq
  end.
  eauto.
Qed.

(** The transformations of a saved row, written in the caller's
    transaction or skipped. *)
Lemma after_row (userID : string) (t1 : TypeMapping) (saveTransformations_ : bool)
  (w : World) :
  let next :=
    if saveTransformations_
    then saveTransformations faults transformationErrors newId userID t1 (Some Client) w
    else (Success true, t1, w) in
  quiet w next.2
  /\ (saveTransformations_ = true ->
      transformation_failure faults transformationErrors t1 ->
      exists e, next.1.1 = Failure e).
Proof.
  cbv zeta. destruct saveTransformations_.
  - destruct (saveTransformations_external faults transformationErrors newId userID t1 w)
      as [Hq Hf].
    split; [exact Hq | intros _; exact Hf].
  - split; [apply quiet_refl | discriminate].
Qed.

(** X18: whether a successful save ends the caller's transaction depends
    on the mapping: for a mapping that has an id, [save] commits the
    transaction it was handed (one commit, no transaction left in
    progress); for a mapping without id it neither commits nor rolls back
    and nothing reaches the committed tables. *)
Theorem successful_save_and_callers_transaction (t : TypeMapping) (userID : string)
  (saveTransformations_ : bool) (w : World) :
  let run := save faults mappingErrors transformationErrors newId t userID
               saveTransformations_ (Some Client) w in
  run.1.1 = Success true ->
  if JS.truthy_string (id t)
  then transactions_between w run.2 [TxCommit] /\ open_tx run.2 = None
  else quiet w run.2.
Proof.
  cbv zeta. unfold save, ensureTransaction, rollbackIfInternal.
  destruct (mappingErrors t) as [errors |]; [discriminate |].
  destruct (JS.truthy_string (id t)).
  - pose proof (quiet_deleteCached t w) as Hq1.
    destruct (Update_outcome userID t (deleteCached t w)) as (Hq2 & _ & _).
    destruct (Update faults userID t Client (deleteCached t w)) as [[row | e] w3];
      cbn [fst snd] in Hq2; [| discriminate].
    cbv zeta.
    destruct (after_row userID (assignMappingID (assign t row)) saveTransformations_ w3)
      as [Hq3 _].
    destruct (if saveTransformations_ then _ else _) as [[[ok | e] t2] w4];
      cbn [fst snd] in Hq3; [| discriminate].
    pose proof (completeTransaction_spec faults w4) as Hc.
    destruct (completeTransaction faults Client w4) as [[ok' | e] w5]; [| discriminate].
    cbn [fst snd]. intros _. destruct Hc as [Hc Hopen]. split; [| exact Hopen].
    assert (Hq : quiet w w4) by chain.
    apply between_quiet in Hq as [Hq _].
    exact (between_trans _ _ _ [] [TxCommit] Hq Hc).
  - destruct (CreateOrUpdate_outcome userID t w) as (Hq2 & _ & _).
    destruct (CreateOrUpdate faults newId userID t Client w) as [[row | e] w3];
      cbn [fst snd] in Hq2; [| discriminate].
    cbv zeta.
    destruct (after_row userID (assignMappingID (assign t row)) saveTransformations_ w3)
      as [Hq3 _].
    destruct (if saveTransformations_ then _ else _) as [[[ok | e] t2] w4];
      cbn [fst snd] in Hq3; [| discriminate].
    cbn [fst snd]. intros _. chain.
Qed.

(** X19: which failure rolls the caller's transaction back depends on the
    mapping. When the write of the mapping row fails, [save] rolls the
    caller's transaction back for a mapping that has an id and leaves it
    alone for one without; when the row is written and the transformations
    cannot be saved, it is the other way round. The save fails in all four
    cases. *)
Theorem failed_save_and_callers_transaction (t : TypeMapping) (userID : string)
  (w : World) :
  mappingErrors t = None ->
  let run := save faults mappingErrors transformationErrors newId t userID true
               (Some Client) w in
  (mapping_write_fails faults = true ->
   (exists e, run.1.1 = Failure e)
   /\ if JS.truthy_string (id t)
      then transactions_between w run.2 [TxRollback] /\ open_tx run.2 = None
      else quiet w run.2)
  /\ (mapping_write_fails faults = false -> open_tx w <> None ->
      transformation_failure faults transformationErrors t ->
      (exists e, run.1.1 = Failure e)
      /\ if JS.truthy_string (id t)
         then quiet w run.2
         else transactions_between w run.2 [TxRollback] /\ open_tx run.2 = None).
Proof.
  intros Hvalid. cbv zeta. unfold save, ensureTransaction, rollbackIfInternal.
  rewrite Hvalid.
  destruct (JS.truthy_string (id t)).
  - pose proof (quiet_deleteCached t w) as Hq1.
    destruct (Update_outcome userID t (deleteCached t w)) as (Hq2 & Hfail & Hruns).
    assert (Hq : quiet w (Update faults userID t Client (deleteCached t w)).2) by chain.
    clear Hq1 Hq2.
    split.
    + intros Hw. destruct (Hfail Hw) as [e He].
      destruct (Update faults userID t Client (deleteCached t w)) as [[row | e'] w3];
        cbn [fst snd] in *; [discriminate |].
      split; [eauto |]. split; [| reflexivity].
      apply between_quiet in Hq as [Hq _].
      exact (between_trans _ _ _ [] [TxRollback] Hq (proj1 (rollbackTransaction_spec w3))).
    + intros Hw Hopen Hbad. destruct (Hruns Hw Hopen) as [row' Hrow].
      destruct (Update faults userID t Client (deleteCached t w)) as [[row | e'] w3];
        cbn [fst snd] in *; [| discriminate].
      cbv zeta.
      destruct (after_row userID (assignMappingID (assign t row)) true w3)
        as [Hq3 Hf3].
      specialize (Hf3 eq_refl (failure_survives_assign faults transformationErrors t row Hbad)).
      cbv zeta in Hq3, Hf3. destruct Hf3 as [e He].
      destruct (saveTransformations faults transformationErrors newId userID
                  (assignMappingID (assign t row)) (Some Client) w3)
        as [[[ok | e4] t2] w4]; cbn [fst snd] in *; [discriminate |].
      split; [eauto | chain].
  - destruct (CreateOrUpdate_outcome userID t w) as (Hq & Hfail & Hruns).
    split.
    + intros Hw. destruct (Hfail Hw) as [e He].
      destruct (CreateOrUpdate faults newId userID t Client w) as [[row | e'] w3];
        cbn [fst snd] in *; [discriminate |].
      split; [eauto | exact Hq].
    + intros Hw Hopen Hbad. destruct (Hruns Hw Hopen) as [row' Hrow].
      destruct (CreateOrUpdate faults newId userID t Client w) as [[row | e'] w3];
        cbn [fst snd] in *; [| discriminate].
      cbv zeta.
      destruct (after_row userID (assignMappingID (assign t row)) true w3)
        as [Hq3 Hf3].
      specialize (Hf3 eq_refl (failure_survives_assign faults transformationErrors t row Hbad)).
      cbv zeta in Hq3, Hf3. destruct Hf3 as [e He].
      destruct (saveTransformations faults transformationErrors newId userID
                  (assignMappingID (assign t row)) (Some Client) w3)
        as [[[ok | e4] t2] w4]; cbn [fst snd] in *; [discriminate |].
      split; [eauto |]. split; [| reflexivity].
      assert (Hq' : quiet w w4) by chain.
      apply between_quiet in Hq' as [Hq' _].
      exact (between_trans _ _ _ [] [TxRollback] Hq' (proj1 (rollbackTransaction_spec w4))).
Qed.

End Saving.

End CallersTransaction.

(** ** The type-mapping repository: a commit that fails *)
Module FailedCommit.
Import TypeMappings TypeMappingNotions MappingSamples TypeMappingFacts.

Lemma inTransaction_keeps {A} (statement : string) (run : Tables -> A * Tables)
  (w : World) :
  open_tx w <> None ->
  exists a w', inTransaction statement false run w = (Success a, w')
               /\ open_tx w' <> None /\ quiet w w'.
Proof.
  intros Hopen.
  pose proof (proj1 (quiet_inTransaction statement false run w)) as Hq.
  unfold inTransaction in *. destruct (open_tx w) as [work |]; [| done].
  destruct (run work) as [a work']. exists a. eexists. split; [reflexivity |].
  split; [done | exact Hq].
Qed.

Lemma open_deleteCachedTransformations (trs : list TypeTransformation) :
  forall w, open_tx (foldl (fun w tr => deleteCachedTransformation tr w) w trs)
            = open_tx w.
Proof.
  induction trs as [| tr trs IH]; intros w; [reflexivity |].
  cbn [foldl]. now rewrite IH.
Qed.

Section Saving.

Variable faults : Faults.
Variable mappingErrors : TypeMapping -> option (list string).
Variable transformationErrors : TypeTransformation -> option (list string).
Variable newId : nat -> string.

Hypothesis Hfaults : only_commit_fails faults.
Hypothesis Hvalid : forall tr, transformationErrors tr = None.

Lemma removeStep_runs (t : TypeMapping) (w : World) :
  open_tx w <> None ->
  exists ok w', removeStep faults t Client w = (Success ok, w')
                /\ open_tx w' <> None /\ quiet w w'.
Proof.
  intros Hopen. destruct Hfaults as (_ & _ & Hd & _).
  unfold removeStep. destruct (removedTransformations t) as [[| r rs] |];
    try (exists true, w; split; [reflexivity | split; [exact Hopen | apply quiet_refl]]).
  unfold BulkDelete. rewrite Hd.
  match goal with
  | |- context [inTransaction ?s false ?run ?w0] =>
      destruct (inTransaction_keeps s run w0) as (a & w' & Heq & Ho & Hq)
  end.
  { now rewrite open_deleteCachedTransformations. }
  exists a, w'. split; [exact Heq | split; [exact Ho |]].
  eapply quiet_trans; [apply quiet_deleteCachedTransformations | exact Hq].
Qed.

Lemma classify_runs (mappingID : option string) (trs : list TypeTransformation) :
  forall w, exists lists trs' w',
    classify transformationErrors mappingID trs w = (Success lists, trs', w')
    /\ open_tx w' = open_tx w /\ quiet w w'.
Proof.
  induction trs as [| tr trs IH]; intros w.
  - exists ([], []), [], w. split; [reflexivity | split; [reflexivity | apply quiet_refl]].
  - cbn [classify]. rewrite Hvalid.
    destruct (IH (deleteCachedTransformation tr w)) as ([upd cre] & trs' & w' & Heq & Ho & Hq).
    rewrite Heq. eexists. eexists. exists w'. split; [reflexivity |].
    split; [exact Ho |].
    eapply quiet_trans; [apply quiet_deleteCachedTransformation | exact Hq].
Qed.

Lemma updateStep_runs (userID : string) (upd : list TypeTransformation) (w : World) :
  open_tx w <> None ->
  exists rows w', updateStep faults userID upd Client w = (Success rows, w')
                  /\ open_tx w' <> None /\ quiet w w'.
Proof.
  intros Hopen. destruct Hfaults as (_ & _ & _ & Hu & _).
  unfold updateStep. destruct upd as [| u upd].
  - exists [], w. split; [reflexivity | split; [exact Hopen | apply quiet_refl]].
  - unfold BulkUpdate. rewrite Hu. now apply inTransaction_keeps.
Qed.

Lemma createStep_runs (userID : string) (cre : list TypeTransformation) (w : World) :
  open_tx w <> None ->
  exists rows w', createStep faults newId userID cre Client w = (Success rows, w')
                  /\ open_tx w' <> None /\ quiet w w'.
Proof.
  intros Hopen. destruct Hfaults as (_ & _ & _ & _ & Hc & _).
  unfold createStep. destruct cre as [| c cre].
  - exists [], w. split; [reflexivity | split; [exact Hopen | apply quiet_refl]].
  - unfold BulkCreate. rewrite Hc. now apply inTransaction_keeps.
Qed.

(** The writes of [saveTransformations] all work: what is left is the
    commit, if the transaction is its own. *)
Lemma saveTransformationsWithin_reaches_commit (userID : string) (t : TypeMapping)
  (internal : bool) (w : World) :
  open_tx w <> None ->
  exists w5 ta tb,
    quiet w w5 /\ open_tx w5 <> None
    /\ saveTransformationsWithin faults transformationErrors newId userID t Client
         internal w
       = match commitIfInternal faults internal Client w5 with
         | (Failure e, w6) => (Failure e, ta, w6)
         | (Success _, w6) => (Success true, tb, w6)
         end.
Proof.
  intros Hopen. unfold saveTransformationsWithin.
  destruct (removeStep_runs t w Hopen) as (ok & w2 & -> & Ho2 & Hq2).
  destruct (transformations t) as [[| tr0 trs] |].
  - exists w2, t, t. split; [exact Hq2 |]. split; [exact Ho2 |]. reflexivity.
  - destruct (classify_runs (id t) (tr0 :: trs) w2)
      as ([upd cre] & trs' & w3 & -> & Ho3 & Hq3).
    rewrite <- Ho3 in Ho2.
    destruct (updateStep_runs userID upd w3 Ho2) as (updated & w4 & -> & Ho4 & Hq4).
    destruct (createStep_runs userID cre w4 Ho4) as (created & w5 & -> & Ho5 & Hq5).
    cbv zeta. exists w5. eexists. eexists. split; [chain |]. split; [exact Ho5 |].
    reflexivity.
  - exists w2, t. eexists. split; [exact Hq2 |]. split; [exact Ho2 |]. reflexivity.
Qed.

Lemma failed_commit (w a : World) :
  open_tx a <> None -> transactions_between w a [TxBegin] -> committed a = committed w ->
  exists e b, completeTransaction faults Client a = (Failure e, b)
              /\ transactions_between w b [TxBegin; TxCommitFailed]
              /\ open_tx b <> None
              /\ committed b = committed w
              /\ transactions_between w (rollbackTransaction Client b)
                   [TxBegin; TxCommitFailed; TxRollback]
              /\ committed (rollbackTransaction Client b) = committed w.
Proof.
  intros Hopen Hb Hc. destruct Hfaults as (_ & _ & _ & _ & _ & Hcf).
  unfold completeTransaction. destruct (open_tx a) as [work |] eqn:Ho; [| done].
  rewrite Hcf. eexists. eexists. split; [reflexivity |].
  assert (Hb' : transactions_between w (note TxCommitFailed a) [TxBegin; TxCommitFailed]).
  { apply (between_trans w a _ [TxBegin] [TxCommitFailed] Hb).
    exists [TxCommitFailed]. split; reflexivity. }
  split; [exact Hb' |]. split; [cbn [open_tx note]; now rewrite Ho |].
  split; [exact Hc |]. split; [| exact Hc].
  apply (between_trans w _ _ [TxBegin; TxCommitFailed] [TxRollback] Hb').
  exists [TxRollback]. split; reflexivity.
Qed.

Lemma started (w : World) :
  exists w1, startTransaction faults w = (Success Client, w1)
             /\ open_tx w1 <> None
             /\ transactions_between w w1 [TxBegin]
             /\ committed w1 = committed w.
Proof.
  destruct Hfaults as (Hs & _). unfold startTransaction. rewrite Hs.
  eexists. split; [reflexivity |]. split; [done |]. split; [| reflexivity].
  exists [TxBegin]. split; reflexivity.
Qed.

Lemma between_then_quiet (w a b : World) (txs : list Event) :
  transactions_between w a txs -> quiet a b -> transactions_between w b txs.
Proof.
  intros Hb Hq. apply between_quiet in Hq as [Hq _].
  rewrite <- (app_nil_r txs). exact (between_trans w a b txs [] Hb Hq).
Qed.

(** X20: when every write works and the commit fails, both calls fail and
    nothing is committed, but only [save] rolls its transaction back:
    [saveTransformations], called without a transaction, returns after the
    failed commit and leaves the transaction it began in progress. *)
Theorem failed_commit_is_rolled_back_by_save_only (t : TypeMapping) (userID : string)
  (saveTransformations_ : bool) (w : World) :
  mappingErrors t = None ->
  let part := saveTransformations faults transformationErrors newId userID t None w in
  let whole := save faults mappingErrors transformationErrors newId t userID
                 saveTransformations_ None w in
  ((exists e, part.1.1 = Failure e)
   /\ transactions_between w part.2 [TxBegin; TxCommitFailed]
   /\ open_tx part.2 <> None
   /\ committed part.2 = committed w)
  /\ ((exists e, whole.1.1 = Failure e)
      /\ transactions_between w whole.2 [TxBegin; TxCommitFailed; TxRollback]
      /\ open_tx whole.2 = None
      /\ committed whole.2 = committed w).
Proof.
  intros Hmapping. cbv zeta. split.
  - unfold saveTransformations, ensureTransaction.
    destruct (started w) as (w1 & -> & Ho1 & Hb1 & Hc1).
    destruct (saveTransformationsWithin_reaches_commit userID t true w1 Ho1)
      as (w5 & ta & tb & Hq & Ho5 & ->).
    cbn [commitIfInternal].
    destruct (failed_commit w w5 Ho5) as (e & b & -> & Hb & Ho & Hc & _).
    { exact (between_then_quiet w w1 w5 _ Hb1 Hq). }
    { destruct Hq as [Hq _]. congruence. }
    cbn [fst snd]. eauto.
  - destruct Hfaults as (_ & Hw & _).
    unfold save, ensureTransaction. rewrite Hmapping.
    destruct (started w) as (w1 & -> & Ho1 & Hb1 & Hc1).
    assert (Hrest : forall (t1 : TypeMapping) (w3 : World),
              open_tx w3 <> None -> quiet w1 w3 ->
              exists ok t2 w4,
                (if saveTransformations_
                 then saveTransformations faults transformationErrors newId userID t1
                        (Some Client) w3
                 else (Success true, t1, w3)) = (Success ok, t2, w4)
                /\ open_tx w4 <> None /\ quiet w1 w4).
    { intros t1 w3 Ho3 Hq3. destruct saveTransformations_.
      - unfold saveTransformations, ensureTransaction.
        destruct (saveTransformationsWithin_reaches_commit userID t1 false w3 Ho3)
          as (w5 & ta & tb & Hq & Ho5 & ->).
        cbn [commitIfInternal]. exists true, tb, w5.
        split; [reflexivity | split; [exact Ho5 | chain]].
      - exists true, t1, w3. auto. }
    destruct (JS.truthy_string (id t)).
    + unfold Update. rewrite Hw.
      match goal with
      | |- context [inTransaction ?s false ?run ?w0] =>
          destruct (inTransaction_keeps s run w0) as (row & w3 & -> & Ho3 & Hq3)
      end.
      { exact Ho1. }
      cbv zeta.
      destruct (Hrest (assignMappingID (assign t row)) w3 Ho3) as (ok & t2 & w4 & -> & Ho4 & Hq4).
      { eapply quiet_trans; [apply quiet_deleteCached | exact Hq3]. }
      destruct (failed_commit w w4 Ho4) as (e & b & -> & _ & _ & _ & Hb & Hc).
      { exact (between_then_quiet w w1 w4 _ Hb1 Hq4). }
      { destruct Hq4 as [Hq4 _]. congruence. }
      cbn [fst snd rollbackIfInternal]. split; [eauto |]. split; [exact Hb |].
      split; [reflexivity | exact Hc].
    + unfold CreateOrUpdate. rewrite Hw.
      match goal with
      | |- context [inTransaction ?s false ?run ?w0] =>
          destruct (inTransaction_keeps s run w0) as (row & w3 & -> & Ho3 & Hq3)
      end.
      { exact Ho1. }
      cbv zeta.
      destruct (Hrest (assignMappingID (assign t row)) w3 Ho3 Hq3)
        as (ok & t2 & w4 & -> & Ho4 & Hq4).
      destruct (failed_commit w w4 Ho4) as (e & b & -> & _ & _ & _ & Hb & Hc).
      { exact (between_then_quiet w w1 w4 _ Hb1 Hq4). }
      { destruct Hq4 as [Hq4 _]. congruence. }
      cbn [fst snd]. split; [eauto |]. split; [exact Hb |].
      split; [reflexivity | exact Hc].
Qed.

End Saving.

End FailedCommit.

(** ** The changelist repository: approving *)
Module ChangelistMore.
Import Changelists ChangelistSamples.

Lemma none_left (changelistID : string) (l : list ChangelistApproval) :
  List.filter (fun a => is_id changelistID (changelist_id a))
    (List.filter (fun a => negb (is_id changelistID (changelist_id a))) l) = [].
Proof.
  induction l as [| a l IH]; [reflexivity |].
  cbn [List.filter]. destruct (is_id changelistID (changelist_id a)) eqn:Ha.
  - exact IH.
  - cbn [negb List.filter]. now rewrite Ha.
Qed.

Section Approving.

Variable faults : Faults.
Variable newId : nat -> string.

(** X21: when its two statements run, [approveChangelist] answers the
    approval it created, which names the changelist and the approver; that
    approval is the one row added to the table, after the rows that were
    there; every changelist with that id is approved and marked as modified
    by the approver, and the other changelists are as before. *)
Theorem approveChangelist_records_one_approval
  (approverID changelistID : string) (db : Database) :
  set_status_fails faults = false ->
  create_approval_fails faults = false ->
  let run := approveChangelist faults newId approverID changelistID db in
  exists row,
    run.1 = Success row
    /\ changelist_id row = Some changelistID
    /\ approved_by row = Some approverID
    /\ changelist_approvals run.2 = changelist_approvals db ++ [row]
    /\ length (changelists run.2) = length (changelists db)
    /\ Forall (fun c => is_id changelistID (id c) = true ->
                        status c = approved /\ modified_by c = Some approverID)
         (changelists run.2)
    /\ (forall c, In c (changelists db) -> is_id changelistID (id c) = false ->
                  In c (changelists run.2)).
Proof.
  intros Hs Hc. cbv zeta. unfold approveChangelist, SetStatus, CreateApproval.
  rewrite Hs, Hc. cbv zeta.
  cbn [fst snd changelists changelist_approvals setStatusStatement now next_approval
       changelist_id approved_by].
  eexists. split; [reflexivity |].
  split; [reflexivity |]. split; [reflexivity |]. split; [reflexivity |].
  split; [now rewrite length_map |]. split.
  - apply Forall_map. apply Forall_forall. intros c _.
    destruct (is_id changelistID (id c)) eqn:Hid; cbn [id status modified_by].
    + intros _. split; reflexivity.
    + rewrite Hid. discriminate.
  - intros c Hin Hid. apply in_map_iff. exists c. now rewrite Hid.
Qed.

(** X22: the outcome of the status update is not looked at. When it fails,
    [approveChangelist] still records the approval and answers it, and
    [revokeApproval] still deletes the approvals and answers success, while
    the changelists, their status included, are what they were. *)
Theorem failed_status_update_is_ignored
  (approverID changelistID : string) (db : Database) :
  set_status_fails faults = true ->
  let approving := approveChangelist faults newId approverID changelistID db in
  let revoking := revokeApproval faults changelistID approverID db in
  (create_approval_fails faults = false ->
   changelists approving.2 = changelists db
   /\ exists row, approving.1 = Success row
                  /\ changelist_approvals approving.2 = changelist_approvals db ++ [row]
                  /\ In row (listApprovals changelistID approving.2))
  /\ (delete_approvals_fails faults = false ->
      changelists revoking.2 = changelists db
      /\ revoking.1 = Success true
      /\ listApprovals changelistID revoking.2 = []).
Proof.
  intros Hs. cbv zeta.
  unfold approveChangelist, revokeApproval, SetStatus, CreateApproval, DeleteByChangelist.
  rewrite Hs. split.
  - intros Hc. rewrite Hc. cbv zeta. cbn [fst snd changelists changelist_approvals].
    split; [reflexivity |]. eexists. split; [reflexivity |]. split; [reflexivity |].
    unfold listApprovals. cbn [changelist_approvals].
    apply List.filter_In. split; [apply in_or_app; right; now left |].
    cbn [changelist_id is_id]. apply String.eqb_refl.
  - intros Hd. rewrite Hd. cbn [fst snd changelists changelist_approvals].
    split; [reflexivity |]. split; [reflexivity |].
    unfold listApprovals. cbn [changelist_approvals]. apply none_left.
Qed.

(** X23: a revocation forgets the approval altogether: revoking after an
    approval leaves the same approvals and the same changelists as revoking
    right away (the changelist is rejected, and none of its approvals is
    left). *)
Theorem revoke_after_approve (approverID revokerID changelistID : string)
  (db : Database) :
  set_status_fails faults = false ->
  create_approval_fails faults = false ->
  delete_approvals_fails faults = false ->
  let approved_db := (approveChangelist faults newId approverID changelistID db).2 in
  let after := (revokeApproval faults changelistID revokerID approved_db).2 in
  let direct := (revokeApproval faults changelistID revokerID db).2 in
  changelist_approvals after = changelist_approvals direct
  /\ changelists after = changelists direct
  /\ listApprovals changelistID after = [].
Proof.
  intros Hs Hc Hd. cbv zeta.
  unfold approveChangelist, revokeApproval, SetStatus, CreateApproval, DeleteByChangelist.
  rewrite Hs, Hc, Hd. cbv zeta.
  cbn [fst snd changelists changelist_approvals setStatusStatement now next_approval
       changelist_id].
  assert (Hfilter : List.filter
            (fun a => negb (is_id changelistID (changelist_id a)))
            (changelist_approvals db
               ++ [ {| approval_id := Some (newId (next_approval db));
                       changelist_id := Some changelistID;
                       approved_by := Some approverID;
                       approved_at := Some (now db) |} ])
          = List.filter (fun a => negb (is_id changelistID (changelist_id a)))
              (changelist_approvals db)).
  { rewrite List.filter_app. cbn [List.filter changelist_id is_id].
    rewrite String.eqb_refl. cbn [negb]. apply app_nil_r. }
  split; [exact Hfilter |]. split.
  - rewrite map_map. apply map_ext. intros c.
    destruct (is_id changelistID (id c)) eqn:Hid; cbn [id]; rewrite Hid; reflexivity.
  - unfold listApprovals. cbn [changelist_approvals]. apply none_left.
Qed.

End Approving.

End ChangelistMore.

(** ** Runs of the further properties on the sample data *)
Module ResolverMoreRuns.
Import Schema RelationshipInputs Samples MoreSamples ResolverMore.


Lemma original_id_must_be_a_string_witness :
  resolverForMetatype underscored show_json show_date no_edges pumps
    "1" Pump by_number
  = (Rejected (TypeError "query.split is not a function"), []).
Proof.
  apply (original_id_must_be_a_string underscored show_json show_date no_edges pumps
           "1" Pump by_number).
  reflexivity.
Defined.

Lemma empty_relationship_rejects_witness :
  exists msg, resolverForMetatype underscored show_json show_date no_edges pumps
                "1" Pump by_no_relationship = (Rejected (TypeError msg), []).
Proof.
  apply (empty_relationship_rejects underscored show_json show_date no_edges pumps
           "1" Pump by_no_relationship).
  left. reflexivity.
Defined.

Lemma matching_edges_restrict_rows_witness :
  exists rows,
    resolverForMetatype underscored show_json show_date one_edge pumps
      "1" Pump feeding_a_tank = (Resolved (Rows rows), [])
    /\ Forall (fun row => In (info_id (out_record row)) [1%Z]) rows
    /\ (Z.of_nat (length rows) <= 10000)%Z.
Proof.
  eapply (matching_edges_restrict_rows underscored show_json show_date one_edge pumps
            "1" Pump feeding_a_tank _ "feeds" [("Storage_Tank", true)] [] []
            [ {| edge_id := 100; origin_id := 1; destination_id := 9 |} ]).
  - vm_compute. reflexivity.
  - reflexivity.
  - reflexivity.
  - discriminate.
  - reflexivity.
Defined.

Lemma argument_becomes_property_predicate_witness :
  exists q, buildQuery underscored show_json no_edges "1" Pump fast_pumps = Ok q
            /\ In (Property "flow rate" ">" "10" "number") (predicates q).
Proof.
  assert (Hq : exists q, buildQuery underscored show_json no_edges "1" Pump fast_pumps
                         = Ok q) by (vm_compute; eauto).
  destruct Hq as [q Hq]. exists q. split; [exact Hq |].
  apply (argument_becomes_property_predicate underscored show_json no_edges "1" Pump
           [flow_rate; installed; condition] flow_rate fast_pumps (JString "> 10") q).
  - reflexivity.
  - repeat constructor; vm_compute; intuition discriminate.
  - now left.
  - now left.
  - reflexivity.
  - exact Hq.
Defined.


End ResolverMoreRuns.

Module PairMoreRuns.
Import Schema RelationshipInputs Samples MoreSamples PairMore.

Lemma underscored_has_no_space (s : string) :
  ~ In " "%char (list_ascii_of_string (underscored s)).
Proof.
  induction s as [| c rest IH]; [intros [] |].
  cbn [underscored list_ascii_of_string In]. intros [H | H]; [| exact (IH H)].
  destruct (Ascii.eqb c " ") eqn:Hc; [discriminate |].
  apply Ascii.eqb_neq in Hc. congruence.
Qed.


Lemma unsanitized_name_has_no_relationship_input_witness :
  exists m, metatypePairList underscored [feeds; drained_by] = Some m
            /\ relationshipInputFields m Tank = ∅
            /\ destinationInputFields m Tank = ∅.
Proof.
  assert (Hm : exists m, metatypePairList underscored [feeds; drained_by] = Some m)
    by (vm_compute; eauto).
  destruct Hm as [m Hm]. exists m. split; [exact Hm |].
  apply (unsanitized_name_has_no_relationship_input underscored [feeds; drained_by]
           m Tank Hm).
  intros s Hs. apply (underscored_has_no_space s). rewrite Hs.
  cbn. tauto.
Defined.

End PairMoreRuns.

Module TypeMappingMoreRuns.
Import TypeMappings TypeMappingNotions MappingSamples MoreMappingSamples.
Import TypeMappingMore SaveCache CallersTransaction FailedCommit.


Lemma transformations_are_partitioned_witness :
  exists upd cre trs' w',
    classify valid_transformation (Some "7")
      [to_pump (Some "3") None; to_pump None None] empty_world
    = (Success (upd, cre), trs', w')
    /\ upd = [to_pump (Some "3") (Some "7")]
    /\ cre = [to_pump None (Some "7")].
Proof.
  assert (Hrun : exists upd cre trs' w',
             classify valid_transformation (Some "7")
               [to_pump (Some "3") None; to_pump None None] empty_world
             = (Success (upd, cre), trs', w')) by (vm_compute; eauto 6).
  destruct Hrun as (upd & cre & trs' & w' & Hrun).
  exists upd, cre, trs', w'. split; [exact Hrun |].
  destruct (transformations_are_partitioned valid_transformation (Some "7")
              [to_pump (Some "3") None; to_pump None None] empty_world
              upd cre trs' w' Hrun) as (Htrs & Hupd & Hcre & _).
  subst trs'. split; [exact Hupd | exact Hcre].
Defined.


Lemma successful_save_and_callers_transaction_witness :
  let run := save no_faults valid_mapping valid_transformation numbered
               (pump_mapping (Some "7") None) "admin" true (Some Client)
               in_transaction in
  transactions_between in_transaction run.2 [TxCommit] /\ open_tx run.2 = None.
Proof.
  cbv zeta.
  pose proof (successful_save_and_callers_transaction no_faults valid_mapping
                valid_transformation numbered (pump_mapping (Some "7") None)
                "admin" true in_transaction) as Hrun.
  cbv zeta in Hrun. apply Hrun. vm_compute. reflexivity.
Defined.

Lemma failed_save_and_callers_transaction_witness :
  let run := save row_write_fails valid_mapping valid_transformation numbered
               (pump_mapping (Some "7") None) "admin" true (Some Client)
               in_transaction in
  (exists e, run.1.1 = Failure e)
  /\ transactions_between in_transaction run.2 [TxRollback]
  /\ open_tx run.2 = None.
Proof.
  cbv zeta.
  destruct (failed_save_and_callers_transaction row_write_fails valid_mapping
              valid_transformation numbered (pump_mapping (Some "7") None)
              "admin" in_transaction eq_refl) as [Hrow _].
  exact (Hrow eq_refl).
Defined.

Lemma failed_commit_is_rolled_back_by_save_only_witness :
  let part := saveTransformations commit_drops valid_transformation numbered "admin"
                (pump_mapping (Some "7") (Some [to_pump None None])) None
                stored_world in
  let whole := save commit_drops valid_mapping valid_transformation numbered
                 (pump_mapping (Some "7") (Some [to_pump None None])) "admin" true
                 None stored_world in
  (transactions_between stored_world part.2 [TxBegin; TxCommitFailed]
   /\ open_tx part.2 <> None)
  /\ (transactions_between stored_world whole.2 [TxBegin; TxCommitFailed; TxRollback]
      /\ open_tx whole.2 = None).
Proof.
  cbv zeta.
  destruct (failed_commit_is_rolled_back_by_save_only commit_drops valid_mapping
              valid_transformation numbered)
    with (t := pump_mapping (Some "7") (Some [to_pump None None]))
         (userID := "admin") (saveTransformations_ := true) (w := stored_world)
    as [(_ & Hpart & Hopen & _) (_ & Hwhole & Hclosed & _)].
  - repeat split.
  - intros tr. reflexivity.
  - reflexivity.
  - split; split; assumption.
Defined.

End TypeMappingMoreRuns.

Module ChangelistMoreRuns.
Import Changelists ChangelistSamples MoreChangelistSamples ChangelistMore.

Lemma approveChangelist_records_one_approval_witness :
  let run := approveChangelist no_faults numbered "admin" "5" reviewed in
  exists row,
    run.1 = Success row
    /\ changelist_id row = Some "5"
    /\ approved_by row = Some "admin"
    /\ changelist_approvals run.2 = changelist_approvals reviewed ++ [row].
Proof.
  cbv zeta.
  destruct (approveChangelist_records_one_approval no_faults numbered "admin" "5"
              reviewed eq_refl eq_refl) as (row & H1 & H2 & H3 & H4 & _).
  exists row. repeat split; assumption.
Defined.

Lemma failed_status_update_is_ignored_witness :
  let approving := approveChangelist status_fails numbered "admin" "5"
                     {| changelists := [changelist "5" pending];
                        changelist_approvals := [];
                        now := "2021-03-02"; next_approval := 1 |} in
  map status (changelists approving.2) = [pending]
  /\ exists row, approving.1 = Success row.
Proof.
  cbv zeta.
  destruct (failed_status_update_is_ignored status_fails numbered "admin" "5"
              {| changelists := [changelist "5" pending];
                 changelist_approvals := [];
                 now := "2021-03-02"; next_approval := 1 |} eq_refl)
    as [Happroving _].
  destruct (Happroving eq_refl) as (Hsame & row & Hrow & _).
  split; [now rewrite Hsame | eauto].
Defined.

Lemma revoke_after_approve_witness :
  let approved_db := (approveChangelist no_faults numbered "admin" "5" reviewed).2 in
  let after := (revokeApproval no_faults "5" "owner" approved_db).2 in
  changelist_approvals after = [approval "1" "4"; approval "3" "4"]
  /\ listApprovals "5" after = [].
Proof.
  cbv zeta.
  destruct (revoke_after_approve no_faults numbered "admin" "owner" "5" reviewed
              eq_refl eq_refl eq_refl) as (Happ & _ & Hnone).
  split; [rewrite Happ; reflexivity | exact Hnone].
Defined.

End ChangelistMoreRuns.
